(** * URL shortener: a shallow embedding of the Go sources and its properties

    Both variants of the service are embedded:
    - [using-json/main.go]: an in-process map and counter guarded by a mutex
      and snapshotted to [store.json]; its handlers are programs over atomic
      accesses to the shared variables, so that requests can be interleaved;
    - the Redis-backed variant: the handlers over the key space of the
      server, and the per-client rate limiter of [/shorten].

    Go's [int64] is a [Z] with the wrap-around written out ([wrap64]); Go
    strings are byte strings, here [string]; Go maps are [gmap]s. The clock
    is an argument of whatever reads it. *)

From Stdlib Require Import ZArith String Ascii List Lia Bool DecimalString.
From stdpp Require Import gmap strings list fin_maps sorting.

Local Open Scope Z_scope.

(** ** Machine integers *)

Definition minInt64 : Z := - 2 ^ 63.
Definition maxInt64 : Z := 2 ^ 63 - 1.

(** Two's-complement wrap-around of [int64] arithmetic. *)
Definition wrap64 (z : Z) : Z := (z + 2 ^ 63) mod 2 ^ 64 - 2 ^ 63.

Definition inInt64 (z : Z) : Prop := minInt64 <= z <= maxInt64.

(** ** Base-62 codes ([encodeBase62], both variants) *)

Definition base62 : string :=
  "0123456789abcdefghijklmnopqrstuvwxyzABCDEFGHIJKLMNOPQRSTUVWXYZ".

(** [s[i]]; Go panics outside the string, the callers below stay inside. *)
Definition byteAt (s : string) (i : Z) : ascii :=
  match String.get (Z.to_nat i) s with
  | Some c => c
  | None => Ascii.zero
  end.

(** The loop [for n > 0 { result = base62[n%62] : result; n /= 62 }].
    [fuel] bounds the number of iterations; [encodeBase62] passes enough. *)
Fixpoint encodeLoop (fuel : nat) (n : Z) (result : string) : string :=
  match fuel with
  | O => result
  | S fuel' =>
      if 0 <? n
      then encodeLoop fuel' (Z.quot n 62) (String (byteAt base62 (Z.rem n 62)) result)
      else result
  end.

Definition encodeBase62 (n : Z) : string :=
  if n =? 0 then "0"%string
  else encodeLoop (S (Z.to_nat (Z.log2 n))) n EmptyString.

(** Specification-side inverse of [encodeBase62]: the integer a code denotes.
    The sources have no decoder; this one only serves to state which integer
    a code encodes. *)
Fixpoint indexOf (c : ascii) (s : string) (i : Z) : Z :=
  match s with
  | EmptyString => 0
  | String c' s' => if Ascii.eqb c c' then i else indexOf c s' (i + 1)
  end.

Definition digitValue (c : ascii) : Z := indexOf c base62 0.

Fixpoint decodeFrom (acc : Z) (s : string) : Z :=
  match s with
  | EmptyString => acc
  | String c s' => decodeFrom (acc * 62 + digitValue c) s'
  end.

Definition decodeBase62 (s : string) : Z := decodeFrom 0 s.


(** ** The in-process variant ([using-json/main.go]) *)

Module Json.

(** *** Data *)

Record URLData := mkURLData {
  LongURL : string;
  Clicks : Z;
  CreatedAt : Z;
  Expiry : Z
}.

(** The snapshot document written to and read from [store.json]. *)
Record Store := mkStore {
  IDCounter : Z;
  URLStore : gmap string URLData
}.

(** [encoding/json] at type [Store], as [saveStore] and [loadStore] call it:
    [json.MarshalIndent(data, "", "  ")] and [json.Unmarshal(data, &store)].
    The library is not part of the sources, so it is an interface here. *)
Class Codec := mkCodec {
  marshalIndent : Store -> string;
  unmarshal : string -> option Store
}.

(** The package-level variables, and the files of the working directory. *)
Record World := mkWorld {
  idCounter : Z;
  urlStore : gmap string URLData;
  mutex : bool;
  files : gmap string string
}.

Definition filename : string := "store.json".

Definition StatusFound : Z := 302.
Definition StatusNoContent : Z := 204.
Definition StatusBadRequest : Z := 400.
Definition StatusNotFound : Z := 404.
Definition StatusMethodNotAllowed : Z := 405.
Definition StatusConflict : Z := 409.
Definition StatusGone : Z := 410.

(** The decoded body of a [/shorten] request; an absent field decodes to the
    zero value of its type. *)
Record ShortenBody := mkShortenBody {
  URL : string;
  CustomCode : string;
  ExpirySeconds : Z
}.

(** What a handler reads of [*http.Request]; [Body = None] is a body that
    [json.Decode] rejects. *)
Record Request := mkRequest {
  Method : string;
  Path : string;
  Body : option ShortenBody
}.

(** One entry of the [/info] and [/list] answers. The two instants are kept
    as Unix seconds; their RFC 3339 rendering is the time library's. *)
Record LinkInfo := mkLinkInfo {
  info_code : string;
  info_long_url : string;
  info_clicks : Z;
  info_created_at : Z;
  info_expires_at : Z;
  info_is_expired : bool
}.

(** What a handler writes to [http.ResponseWriter]. *)
Inductive Response :=
| Error (msg : string) (status : Z)
| Shortened (short_url : string) (expiry_seconds : Z)
| Redirect (url : string) (status : Z)
| InfoJSON (info : LinkInfo)
| ListJSON (links : list LinkInfo)
| WriteHeader (status : Z).

(** *** Pure helpers *)

Definition isAlnum (c : ascii) : bool :=
  let n := Z.of_N (N_of_ascii c) in
  ((48 <=? n) && (n <=? 57)) || ((65 <=? n) && (n <=? 90)) || ((97 <=? n) && (n <=? 122)).

Fixpoint allAlnum (s : string) : bool :=
  match s with
  | EmptyString => true
  | String c s' => isAlnum c && allAlnum s'
  end.

(** [validCodeRegex.MatchString(code)] for [^[a-zA-Z0-9]+$]. *)
Definition isValidCode (code : string) : bool :=
  match code with
  | EmptyString => false
  | _ => allAlnum code
  end.

Definition isValidURL (url : string) : bool :=
  String.prefix "http://" url || String.prefix "https://" url.

(** [strings.TrimPrefix]. *)
Definition TrimPrefix (s pre : string) : string :=
  if String.prefix pre s
  then String.substring (String.length pre) (String.length s - String.length pre) s
  else s.

(** The comparison [now > data.CreatedAt + data.Expiry] that the sweep, the
    redirect, [/info] and [/list] all evaluate. *)
Definition IsExpired (data : URLData) (now : Z) : bool :=
  wrap64 (CreatedAt data + Expiry data) <? now.

(** [os.Rename] on the modelled directory. *)
Definition rename (old new : string) (fs : gmap string string) : gmap string string :=
  match fs !! old with
  | Some content => <[new := content]> (delete old fs)
  | None => fs
  end.

Section WithCodec.
Context {codec : Codec}.

(** [saveStore]: marshal the two globals, write [store.json.tmp], rename it
    over [store.json]. The [log.Fatalf] exits belong to a failing file
    system, which is not modelled. *)
Definition saveStore (w : World) : World :=
  let data := {| IDCounter := idCounter w; URLStore := urlStore w |} in
  let fileBytes := marshalIndent data in
  let tempFile := (filename +:+ ".tmp")%string in
  let written := <[tempFile := fileBytes]> (files w) in
  {| idCounter := idCounter w; urlStore := urlStore w; mutex := mutex w;
     files := rename tempFile filename written |}.

(** [loadStore]: [None] is the [log.Fatalf] exit on an unreadable document. *)
Definition loadStore (w : World) : option World :=
  match files w !! filename with
  | None => Some w
  | Some data =>
      match unmarshal data with
      | None => None
      | Some store =>
          Some {| idCounter := IDCounter store; urlStore := URLStore store;
                  mutex := mutex w; files := files w |}
      end
  end.

(** *** Handlers as programs over the shared variables

    A handler is a tree of atomic accesses to the package-level state, so
    that it can be run alone ([run]) or interleaved with other requests
    ([interleave]), as [net/http] serves each request on its own goroutine. *)

Inductive event : Type -> Type :=
| Lock : event unit
| Unlock : event unit
| ReadCounter : event Z
| WriteCounter (n : Z) : event unit
| MapLookup (code : string) : event (option URLData)
| MapStore (code : string) (data : URLData) : event unit
| MapDelete (code : string) : event unit
| MapRange : event (list (string * URLData))
| SaveStore : event unit.

Inductive prog (A : Type) : Type :=
| Ret (a : A)
| Vis {X : Type} (e : event X) (k : X -> prog A).

Arguments Ret {A} a.
Arguments Vis {A X} e k.

Fixpoint bind {A B : Type} (p : prog A) (f : A -> prog B) : prog B :=
  match p with
  | Ret a => f a
  | Vis e k => Vis e (fun x => bind (k x) f)
  end.

Definition trigger {X : Type} (e : event X) : prog X := Vis e Ret.

#[export] Instance prog_ret : MRet prog := @Ret.
#[export] Instance prog_bind : MBind prog := fun A B f p => bind p f.

Definition setCounter (n : Z) (w : World) : World :=
  {| idCounter := n; urlStore := urlStore w; mutex := mutex w; files := files w |}.

Definition setStore (m : gmap string URLData) (w : World) : World :=
  {| idCounter := idCounter w; urlStore := m; mutex := mutex w; files := files w |}.

Definition setMutex (b : bool) (w : World) : World :=
  {| idCounter := idCounter w; urlStore := urlStore w; mutex := b; files := files w |}.

(** One atomic access. [Lock] on a held mutex does not proceed ([None]);
    the handlers unlock only what they have locked. *)
Definition handle {X : Type} (e : event X) (w : World) : option (X * World) :=
  match e in event X return option (X * World) with
  | Lock => if mutex w then None else Some (tt, setMutex true w)
  | Unlock => Some (tt, setMutex false w)
  | ReadCounter => Some (idCounter w, w)
  | WriteCounter n => Some (tt, setCounter n w)
  | MapLookup code => Some (urlStore w !! code, w)
  | MapStore code data => Some (tt, setStore (<[code := data]> (urlStore w)) w)
  | MapDelete code => Some (tt, setStore (delete code (urlStore w)) w)
  | MapRange => Some (map_to_list (urlStore w), w)
  | SaveStore => Some (tt, saveStore w)
  end.

(** Does the access read or write the map, the counter or the snapshot? *)
Definition touchesStore {X : Type} (e : event X) : bool :=
  match e with
  | Lock | Unlock => false
  | _ => true
  end.

(** A request served alone. [None]: it waits forever on the mutex. *)
Fixpoint run {A : Type} (p : prog A) (w : World) : option (A * World) :=
  match p with
  | Ret a => Some (a, w)
  | Vis e k =>
      match handle e w with
      | Some (x, w') => run (k x) w'
      | None => None
      end
  end.

(** The number of store accesses a request served alone makes while the
    mutex is not held. *)
Fixpoint unguarded {A : Type} (p : prog A) (w : World) : nat :=
  match p with
  | Ret _ => O
  | Vis e k =>
      ((if touchesStore e && negb (mutex w) then 1 else 0) +
       match handle e w with
       | Some (x, w') => unguarded (k x) w'
       | None => 0
       end)%nat
  end.

(** Requests served concurrently: [sched] names, step by step, the goroutine
    that performs its next atomic access; a goroutine waiting on the mutex,
    or one that has returned, stays as it is. *)
Definition stepThread {A : Type} (p : prog A) (w : World) : prog A * World :=
  match p with
  | Ret a => (Ret a, w)
  | Vis e k =>
      match handle e w with
      | Some (x, w') => (k x, w')
      | None => (p, w)
      end
  end.

Fixpoint interleave {A : Type} (sched : list nat) (ts : list (prog A)) (w : World)
  : list (prog A) * World :=
  match sched with
  | [] => (ts, w)
  | i :: sched' =>
      match ts !! i with
      | Some p =>
          let '(p', w') := stepThread p w in
          interleave sched' (<[i := p']> ts) w'
      | None => interleave sched' ts w
      end
  end.

Definition returned {A : Type} (p : prog A) : option A :=
  match p with
  | Ret a => Some a
  | Vis _ _ => None
  end.

(** [mutex.Lock(); defer mutex.Unlock()] around the rest of a function. *)
Definition lockDeferUnlock {A : Type} (body : prog A) : prog A :=
  trigger Lock ;; a ← body; trigger Unlock ;; mret a.

(** A program that leaves the mutex alone: every access is one to the store. *)
Inductive lockFree {A : Type} : prog A -> Prop :=
| lockFree_Ret (a : A) : lockFree (Ret a)
| lockFree_Vis {X : Type} (e : event X) (k : X -> prog A) :
    touchesStore e = true -> (forall x, lockFree (k x)) -> lockFree (Vis e k).

(** The loop [for code, data := range urlStore] of the sweep: the entry at
    hand is deleted when its expiry instant lies before [now]. *)
Fixpoint sweepLoop (now : Z) (entries : list (string * URLData)) : prog unit :=
  match entries with
  | [] => mret tt
  | (code, data) :: rest =>
      (if IsExpired data now then trigger (MapDelete code) else mret tt) ;;
      sweepLoop now rest
  end.

(** [cleanUpExpiredLinks], the clock read as [now]. *)
Definition cleanUpExpiredLinks (now : Z) : prog unit :=
  lockDeferUnlock (
    entries ← trigger MapRange;
    sweepLoop now entries ;;
    trigger SaveStore).

(** [idCounter++; code = encodeBase62(idCounter)]: the allocation of the next
    system-generated code. *)
Definition nextCode : prog string :=
  c ← trigger ReadCounter;
  trigger (WriteCounter (wrap64 (c + 1))) ;;
  c' ← trigger ReadCounter;
  mret (encodeBase62 c').

Definition defaultExpiry : Z := 7 * 24 * 3600.

(** [expiry := body.ExpirySeconds; if expiry == 0 { expiry = 7 * 24 * 3600 }]. *)
Definition storedExpiry (body : ShortenBody) : Z :=
  if ExpirySeconds body =? 0 then defaultExpiry else ExpirySeconds body.

(** [shortenHandler]; [time.Now().Unix()] reads [now]. *)
Definition shortenHandler (now : Z) (r : Request) : prog Response :=
  if negb (Method r =? "POST")%string
  then mret (Error "Only POST allowed" StatusMethodNotAllowed)
  else
    match Body r with
    | None => mret (Error "Invalid request body" StatusBadRequest)
    | Some body =>
        if (URL body =? "")%string
        then mret (Error "Invalid request body" StatusBadRequest)
        else if negb (isValidURL (URL body))
        then mret (Error "Invalid URL. Must start with http:// or https://" StatusBadRequest)
        else
          lockDeferUnlock (
            chosen ←
              (if negb (CustomCode body =? "")%string
               then
                 if negb (isValidCode (CustomCode body))
                 then mret (inl (Error "Invalid custom code. Use only letters and numbers."
                                   StatusBadRequest))
                 else
                   found ← trigger (MapLookup (CustomCode body));
                   match found with
                   | Some _ => mret (inl (Error "Custom code already in use" StatusConflict))
                   | None => mret (inr (CustomCode body))
                   end
               else code ← nextCode; mret (inr code));
            match chosen with
            | inl failure => mret failure
            | inr code =>
                let expiry := storedExpiry body in
                trigger (MapStore code {| LongURL := URL body; Clicks := 0;
                                          CreatedAt := now; Expiry := expiry |}) ;;
                trigger SaveStore ;;
                mret (Shortened ("http://localhost:8080/" +:+ code)%string expiry)
            end)
    end.

(** [handleRedirects]; the function takes no lock. *)
Definition handleRedirects (now : Z) (r : Request) : prog Response :=
  let code := TrimPrefix (Path r) "/" in
  first ← trigger (MapLookup code);
  if match first with
     | Some data => negb (Expiry data =? 0) && IsExpired data now
     | None => false
     end
  then mret (Error "URL expired" StatusGone)
  else
    second ← trigger (MapLookup code);
    match second with
    | Some data =>
        let data := {| LongURL := LongURL data; Clicks := wrap64 (Clicks data + 1);
                       CreatedAt := CreatedAt data; Expiry := Expiry data |} in
        trigger (MapStore code data) ;;
        trigger SaveStore ;;
        mret (Redirect (LongURL data) StatusFound)
    | None => mret (Error "URL not found!" StatusNotFound)
    end.

Definition linkInfo (now : Z) (code : string) (data : URLData) : LinkInfo :=
  {| info_code := code;
     info_long_url := LongURL data;
     info_clicks := Clicks data;
     info_created_at := CreatedAt data;
     info_expires_at := wrap64 (CreatedAt data + Expiry data);
     info_is_expired := IsExpired data now |}.

(** [infoHandler]. *)
Definition infoHandler (now : Z) (r : Request) : prog Response :=
  let code := TrimPrefix (Path r) "/info/" in
  lockDeferUnlock (
    found ← trigger (MapLookup code);
    match found with
    | None => mret (Error "Short URL not found" StatusNotFound)
    | Some data => mret (InfoJSON (linkInfo now code data))
    end).

(** [listHandle]. *)
Definition listHandle (now : Z) (r : Request) : prog Response :=
  if negb (Method r =? "GET")%string
  then mret (Error "Only GET allowed" StatusMethodNotAllowed)
  else
    lockDeferUnlock (
      entries ← trigger MapRange;
      mret (ListJSON (map (fun e => linkInfo now (fst e) (snd e)) entries))).

(** [deleteHandle]. *)
Definition deleteHandle (r : Request) : prog Response :=
  if negb (Method r =? "DELETE")%string
  then mret (Error "Only DELETE allowed" StatusMethodNotAllowed)
  else
    let code := TrimPrefix (Path r) "/delete/" in
    lockDeferUnlock (
      found ← trigger (MapLookup code);
      match found with
      | None => mret (Error "Short URL not found" StatusNotFound)
      | Some _ =>
          trigger (MapDelete code) ;;
          trigger SaveStore ;;
          mret (WriteHeader StatusNoContent)
      end).

(** The code and the counter value an accepted request ends with: those of
    the two branches on [body.CustomCode]. *)
Definition chosenCode (w : World) (body : ShortenBody) : string :=
  if (CustomCode body =? "")%string
  then encodeBase62 (wrap64 (idCounter w + 1))
  else CustomCode body.

Definition chosenCounter (w : World) (body : ShortenBody) : Z :=
  if (CustomCode body =? "")%string then wrap64 (idCounter w + 1) else idCounter w.

(** [k] allocations in a row, oldest code first. *)
Fixpoint nextCodes (k : nat) : prog (list string) :=
  match k with
  | O => mret []
  | S k' => code ← nextCode; codes ← nextCodes k'; mret (code :: codes)
  end.

End WithCodec.

End Json.

(** ** A JSON writer and reader for the snapshot document

    [encoding/json] is a library, not part of the sources. Where a concrete
    codec is wanted, this one writes a [Store] in the layout of
    [json.MarshalIndent(data, "", "  ")] -- the keys of the map in byte order,
    two spaces per level -- and reads that layout back, white space being
    free. Of the characters of a string only the quote and the backslash are
    escaped; the others are written as they are. Every writer takes the text
    that follows as its last argument. *)

Module JSONCodec.
Import Json.

Definition dquote : ascii := "034"%char.
Definition backslash : ascii := "092"%char.
Definition newline : string := String "010"%char EmptyString.

(** Literal text. *)
Fixpoint lit (s k : string) : string :=
  match s with
  | EmptyString => k
  | String c s' => String c (lit s' k)
  end.

Fixpoint putEscaped (s k : string) : string :=
  match s with
  | EmptyString => k
  | String c s' =>
      if Ascii.eqb c dquote || Ascii.eqb c backslash
      then String backslash (String c (putEscaped s' k))
      else String c (putEscaped s' k)
  end.

Definition putString (s k : string) : string :=
  String dquote (putEscaped s (String dquote k)).

Definition digitChar (d : Z) : ascii := ascii_of_N (Z.to_N (48 + d)).

(** The decimal digits of [n], most significant first; one digit per unit of
    [fuel], of which [putInt] passes enough. *)
Fixpoint putDigits (fuel : nat) (n : Z) (k : string) : string :=
  match fuel with
  | O => k
  | S fuel' =>
      let k' := String (digitChar (n mod 10)) k in
      if n <? 10 then k' else putDigits fuel' (n / 10) k'
  end.

Definition putInt (z : Z) (k : string) : string :=
  if z <? 0
  then String "-"%char (putDigits (S (Z.to_nat (Z.log2 (- z)))) (- z) k)
  else putDigits (S (Z.to_nat (Z.log2 z))) z k.

Definition putField (indent name : string) (value : string -> string)
  : string -> string :=
  lit indent ∘ putString name ∘ lit ": " ∘ value.

Definition putURLData (data : URLData) : string -> string :=
  lit "{" ∘ lit newline ∘
  putField "      " "long_url" (putString (LongURL data)) ∘ lit "," ∘ lit newline ∘
  putField "      " "clicks" (putInt (Clicks data)) ∘ lit "," ∘ lit newline ∘
  putField "      " "created_at" (putInt (CreatedAt data)) ∘ lit "," ∘ lit newline ∘
  putField "      " "expiry" (putInt (Expiry data)) ∘ lit newline ∘
  lit "    }".

Definition putEntry (entry : string * URLData) : string -> string :=
  lit "    " ∘ putString (fst entry) ∘ lit ": " ∘ putURLData (snd entry).

Fixpoint putEntries (entries : list (string * URLData)) : string -> string :=
  match entries with
  | [] => id
  | [entry] => putEntry entry ∘ lit newline
  | entry :: rest => putEntry entry ∘ lit "," ∘ lit newline ∘ putEntries rest
  end.

Definition keyLe (a b : string * URLData) : Prop := String.le (fst a) (fst b).

Definition putURLStore (m : gmap string URLData) : string -> string :=
  match merge_sort keyLe (map_to_list m) with
  | [] => lit "{}"
  | entries => lit "{" ∘ lit newline ∘ putEntries entries ∘ lit "  }"
  end.

Definition putStore (store : Store) : string -> string :=
  lit "{" ∘ lit newline ∘
  putField "  " "idCounter" (putInt (IDCounter store)) ∘ lit "," ∘ lit newline ∘
  putField "  " "urlStore" (putURLStore (URLStore store)) ∘ lit newline ∘
  lit "}".

Definition showStore (store : Store) : string := putStore store EmptyString.

(** Reading. Every reader returns what it read and the rest of the input. *)

Fixpoint skipSpace (s : string) : string :=
  match s with
  | String c s' => if Ascii.is_space c then skipSpace s' else s
  | EmptyString => EmptyString
  end.

Fixpoint expect (l s : string) : option string :=
  match l with
  | EmptyString => Some s
  | String c l' =>
      match s with
      | String d s' => if Ascii.eqb c d then expect l' s' else None
      | EmptyString => None
      end
  end.

Definition token (l s : string) : option string := expect l (skipSpace s).

(** The characters of a string literal, after its opening quote. *)
Fixpoint readChars (s : string) : option (string * string) :=
  match s with
  | EmptyString => None
  | String c s' =>
      if Ascii.eqb c dquote then Some (EmptyString, s')
      else if Ascii.eqb c backslash then
        match s' with
        | String d s'' =>
            if Ascii.eqb d dquote || Ascii.eqb d backslash
            then match readChars s'' with
                 | Some (chars, rest) => Some (String d chars, rest)
                 | None => None
                 end
            else None
        | EmptyString => None
        end
      else match readChars s' with
           | Some (chars, rest) => Some (String c chars, rest)
           | None => None
           end
  end.

Definition readString (s : string) : option (string * string) :=
  match skipSpace s with
  | String c s' => if Ascii.eqb c dquote then readChars s' else None
  | EmptyString => None
  end.

Definition digitOf (c : ascii) : option Z :=
  let n := Z.of_N (N_of_ascii c) in
  if (48 <=? n) && (n <=? 57) then Some (n - 48) else None.

Fixpoint readDigits (acc : Z) (s : string) : Z * string :=
  match s with
  | String c s' =>
      match digitOf c with
      | Some d => readDigits (acc * 10 + d) s'
      | None => (acc, s)
      end
  | EmptyString => (acc, EmptyString)
  end.

Definition readNat (s : string) : option (Z * string) :=
  match s with
  | String c _ =>
      match digitOf c with
      | Some _ => Some (readDigits 0 s)
      | None => None
      end
  | EmptyString => None
  end.

Definition readInt (s : string) : option (Z * string) :=
  match skipSpace s with
  | String c s' =>
      if Ascii.eqb c "-"%char
      then match readNat s' with
           | Some (n, rest) => Some (- n, rest)
           | None => None
           end
      else readNat (String c s')
  | EmptyString => None
  end.

Definition readKey (name s : string) : option string :=
  match readString s with
  | Some (key, rest) => if (key =? name)%string then token ":" rest else None
  | None => None
  end.

Definition readURLData (s : string) : option (URLData * string) :=
  s ← token "{" s;
  s ← readKey "long_url" s; '(long_url, s) ← readString s; s ← token "," s;
  s ← readKey "clicks" s; '(clicks, s) ← readInt s; s ← token "," s;
  s ← readKey "created_at" s; '(created_at, s) ← readInt s; s ← token "," s;
  s ← readKey "expiry" s; '(expiry, s) ← readInt s;
  s ← token "}" s;
  Some ({| LongURL := long_url; Clicks := clicks;
           CreatedAt := created_at; Expiry := expiry |}, s).

(** The entries of the [urlStore] object; every entry takes at least one
    character, so the length of the input is [fuel] enough. *)
Fixpoint readEntries (fuel : nat) (m : gmap string URLData) (s : string)
  : option (gmap string URLData * string) :=
  match fuel with
  | O => None
  | S fuel' =>
      '(code, s) ← readString s;
      s ← token ":" s;
      '(data, s) ← readURLData s;
      let m := <[code := data]> m in
      match token "," s with
      | Some s => readEntries fuel' m s
      | None => s ← token "}" s; Some (m, s)
      end
  end.

Definition readURLStore (s : string) : option (gmap string URLData * string) :=
  s ← token "{" s;
  match token "}" s with
  | Some s => Some (∅, s)
  | None => readEntries (String.length s) ∅ s
  end.

Definition readStore (s : string) : option Store :=
  s ← token "{" s;
  s ← readKey "idCounter" s; '(counter, s) ← readInt s; s ← token "," s;
  s ← readKey "urlStore" s; '(m, s) ← readURLStore s;
  s ← token "}" s;
  match skipSpace s with
  | EmptyString => Some {| IDCounter := counter; URLStore := m |}
  | _ => None
  end.

#[export] Instance codec : Codec :=
  {| marshalIndent := showStore; unmarshal := readStore |}.

(** The text that follows a number does not go on with a digit. *)
Definition endsNumber (k : string) : Prop :=
  match k with
  | EmptyString => True
  | String c _ => digitOf c = None
  end.

End JSONCodec.

(** ** Worlds and requests of the scenarios *)

Module Scenario.
Import Json.

Definition exampleURL : string := "https://example.com".

(** No file yet, empty map, counter 0: a fresh start. *)
Definition freshWorld : World :=
  {| idCounter := 0; urlStore := ∅; mutex := false; files := ∅ |}.

Definition shortenRequest (url custom : string) (ttl : Z) : Request :=
  {| Method := "POST"; Path := "/shorten";
     Body := Some {| URL := url; CustomCode := custom; ExpirySeconds := ttl |} |}.

Definition getRequest (path : string) : Request :=
  {| Method := "GET"; Path := path; Body := None |}.

(** A store holding one record under the custom code [abc]. *)
Definition abcRecord : URLData :=
  {| LongURL := exampleURL; Clicks := 0; CreatedAt := 1700000000; Expiry := 10 |}.

Definition abcWorld : World :=
  {| idCounter := 0; urlStore := {[ "abc"%string := abcRecord ]};
     mutex := false; files := ∅ |}.

(** A store holding one record that is still live at [liveNow]. *)
Definition liveRecord : URLData :=
  {| LongURL := exampleURL; Clicks := 0; CreatedAt := 1700000000; Expiry := 604800 |}.

Definition liveWorld : World :=
  {| idCounter := 0; urlStore := {[ "abc"%string := liveRecord ]};
     mutex := false; files := ∅ |}.

Definition liveNow : Z := 1700000100.

Definition clickedRecord : URLData :=
  {| LongURL := exampleURL; Clicks := 1; CreatedAt := 1700000000; Expiry := 604800 |}.

(** The store of the reload scenario: counter 3, one record under ["3"]. *)
Definition threeWorld : World :=
  {| idCounter := 3;
     urlStore := {[ "3"%string :=
       {| LongURL := exampleURL; Clicks := 2; CreatedAt := 1700000000; Expiry := 604800 |} ]};
     mutex := false; files := ∅ |}.

End Scenario.

(** ** The per-client rate limiter of the Redis-backed variant *)

Module Limiter.

(** Instants and durations are nanosecond counts, as in package [time]. *)
Definition Second : Z := 1000000000.
Definition Minute : Z := 60 * Second.

Definition rateLimitWindow : Z := 1 * Minute.
Definition maxRequests : Z := 5.

Record rateLimiter := mkRateLimiter {
  lastRequest : Z;
  requests : Z
}.

(** [t.Sub(u)]: the difference, saturated to the range of [time.Duration]. *)
Definition Sub (t u : Z) : Z :=
  let d := t - u in
  if maxInt64 <? d then maxInt64
  else if d <? minInt64 then minInt64
  else d.

(** [time.Since(t)] when the clock reads [now]. *)
Definition Since (now t : Z) : Z := Sub now t.

(** What the middleware does with the request: fall through to the handler,
    or [c.AbortWithStatusJSON]. *)
Inductive Outcome :=
| Next
| Abort (status : Z) (msg : string).

Definition rateLimited : Outcome :=
  Abort 429 "Rate limit exceeded. Try again later.".

(** The closure returned by [rateLimitMiddleware], between [rlMutex.Lock()]
    and [rlMutex.Unlock()]; [ip] is [c.ClientIP()]. The clock readings of one
    pass are one instant [now]. The table holds pointers: the writes through
    [limiter] are writes to the entry of [ip]. *)
Definition rateLimitMiddleware (now : Z) (ip : string) (rl : gmap string rateLimiter)
  : gmap string rateLimiter * Outcome :=
  let fresh := (<[ip := {| lastRequest := now; requests := 1 |}]> rl, Next) in
  match rl !! ip with
  | None => fresh
  | Some limiter =>
      if rateLimitWindow <? Since now (lastRequest limiter)
      then fresh
      else if maxRequests <=? requests limiter
      then (rl, rateLimited)
      else (<[ip := {| lastRequest := now;
                       requests := wrap64 (requests limiter + 1) |}]> rl, Next)
  end.

(** The guard [!exists || time.Since(limiter.lastRequest) > rateLimitWindow]
    of the middleware, on its own: does an attempt start a new window? *)
Definition startsWindow (now : Z) (ip : string) (rl : gmap string rateLimiter) : bool :=
  match rl !! ip with
  | None => true
  | Some limiter => rateLimitWindow <? Since now (lastRequest limiter)
  end.

(** [cleanRateLimiters], the clock read as [now]. *)
Definition cleanRateLimiters (now : Z) (rl : gmap string rateLimiter)
  : gmap string rateLimiter :=
  filter (fun entry => negb (2 * Minute <? Sub now (lastRequest (snd entry))) = true) rl.

(** A sequence of [/shorten] attempts, each an instant and a client. *)
Fixpoint serve (attempts : list (Z * string)) (rl : gmap string rateLimiter)
  : gmap string rateLimiter :=
  match attempts with
  | [] => rl
  | (now, ip) :: rest => serve rest (fst (rateLimitMiddleware now ip rl))
  end.

(** The outcomes of the attempts of client [ip] among [attempts]. *)
Fixpoint outcomesOf (ip : string) (attempts : list (Z * string))
  (rl : gmap string rateLimiter) : list Outcome :=
  match attempts with
  | [] => []
  | (now, ip') :: rest =>
      let '(rl', outcome) := rateLimitMiddleware now ip' rl in
      if decide (ip' = ip)
      then outcome :: outcomesOf ip rest rl'
      else outcomesOf ip rest rl'
  end.

(** No attempt of client [ip] among [attempts] starts a new window. *)
Fixpoint sameWindow (ip : string) (attempts : list (Z * string))
  (rl : gmap string rateLimiter) : Prop :=
  match attempts with
  | [] => True
  | (now, ip') :: rest =>
      (ip' = ip -> startsWindow now ip rl = false) /\
      sameWindow ip rest (fst (rateLimitMiddleware now ip' rl))
  end.

(** The instant at which the current window of client [ip] was started: that
    of its latest attempt that reset the entry to [(now, 1)]; [ws] is the
    start known before [attempts]. *)
Fixpoint windowStart (ip : string) (attempts : list (Z * string))
  (rl : gmap string rateLimiter) (ws : option Z) : option Z :=
  match attempts with
  | [] => ws
  | (now, ip') :: rest =>
      windowStart ip rest (fst (rateLimitMiddleware now ip' rl))
        (if decide (ip' = ip)
         then (if startsWindow now ip rl then Some now else ws)
         else ws)
  end.

Definition attemptsOf (ip : string) (attempts : list (Z * string)) : nat :=
  length (filter (fun a => snd a = ip) attempts).

(** The instants of the attempts of client [ip] among [attempts]. *)
Definition timesOf (ip : string) (attempts : list (Z * string)) : list Z :=
  map fst (filter (fun a => snd a = ip) attempts).

End Limiter.

(** ** The Redis-backed variant ([redis-client.go] and its handlers)

    The database is the key space of one Redis server: byte strings under
    byte-string keys. The connection is taken to work, so that a command
    fails only where the server itself refuses it: [GET] of an absent key,
    [INCR] of a value that is not a 64-bit integer or would overflow. The
    records are those of the in-process variant. *)

Module Redis.
Import Json.

(** [encoding/json] at type [URLData]: [json.Marshal(data)] and
    [json.Unmarshal([]byte(val), &data)]. *)
Class DataCodec := mkDataCodec {
  marshal : URLData -> string;
  unmarshalData : string -> option URLData
}.

(** [t.UTC().Format(time.RFC3339)] of the instant [time.Unix(sec, 0)], and
    [time.Parse(time.RFC3339, s)] followed by [.Unix()]. *)
Class TimeLayout := mkTimeLayout {
  formatRFC3339 : Z -> string;
  parseRFC3339 : string -> option Z
}.

Definition counterKey : string := "url_id_counter".

Definition StatusInternalServerError : Z := 500.

(** What a handler hands to [*gin.Context]. *)
Inductive Response :=
| ErrorJSON (status : Z) (error : string)
| ShortenedJSON (status : Z) (short_url : string)
| Redirect (status : Z) (url : string)
| Status (status : Z).

(** The value of a counter key as [INCR] reads it: a decimal integer in
    canonical form within [int64]. *)
Definition parseCounter (v : string) : option Z :=
  match JSONCodec.readInt v with
  | Some (n, EmptyString) =>
      if (JSONCodec.putInt n EmptyString =? v)%string &&
         (minInt64 <=? n) && (n <=? maxInt64)
      then Some n else None
  | _ => None
  end.

(** [Rdb.Incr(Ctx, key).Result()]. *)
Definition Incr (key : string) (db : gmap string string) : option (Z * gmap string string) :=
  match db !! key with
  | None => Some (1, <[key := JSONCodec.putInt 1 EmptyString]> db)
  | Some v =>
      match parseCounter v with
      | Some n =>
          if n <? maxInt64
          then Some (n + 1, <[key := JSONCodec.putInt (n + 1) EmptyString]> db)
          else None
      | None => None
      end
  end.

Section WithCodec.
Context {codec : DataCodec} {layout : TimeLayout}.

(** [SaveURL]; [None] is a non-nil error. *)
Definition SaveURL (code : string) (data : URLData) (db : gmap string string)
  : option (gmap string string) :=
  Some (<[code := marshal data]> db).

(** [GetURL]; [None] is a non-nil error. *)
Definition GetURL (code : string) (db : gmap string string) : option URLData :=
  match db !! code with
  | None => None
  | Some val => unmarshalData val
  end.

(** [DeleteURL]: [DEL] of an absent key is no error. *)
Definition DeleteURL (code : string) (db : gmap string string)
  : option (gmap string string) :=
  Some (delete code db).

(** [GetNextID]. *)
Definition GetNextID (db : gmap string string) : option (Z * gmap string string) :=
  Incr counterKey db.

(** One entry of [ListURLs]: the fields the handlers and the sweep read. *)
Record Listed := mkListed {
  listed_code : string;
  listed_long_url : string;
  listed_clicks : Z;
  listed_created_at : string;
  listed_expires_at : string;
  listed_is_expired : bool
}.

(** [ListURLs], the clock read as [current_time]; keys are scanned in the
    order of [map_to_list], values that do not decode are skipped. *)
Definition ListURLs (current_time : Z) (db : gmap string string) : list Listed :=
  omap (fun entry =>
          match GetURL (fst entry) db with
          | None => None
          | Some data =>
              let expiryTime := wrap64 (CreatedAt data + Expiry data) in
              Some {| listed_code := fst entry;
                      listed_long_url := LongURL data;
                      listed_clicks := Clicks data;
                      listed_created_at := formatRFC3339 (CreatedAt data);
                      listed_expires_at := formatRFC3339 expiryTime;
                      listed_is_expired := expiryTime <? current_time |}
          end)
       (map_to_list db).

(** The loop of [cleanUpExpiredLinks] over the listed entries. *)
Fixpoint sweepListed (now : Z) (urls : list Listed) (db : gmap string string)
  : gmap string string :=
  match urls with
  | [] => db
  | urlData :: rest =>
      match parseRFC3339 (listed_expires_at urlData) with
      | None => sweepListed now rest db
      | Some expiresAt =>
          if expiresAt <? now
          then match DeleteURL (listed_code urlData) db with
               | Some db' => sweepListed now rest db'
               | None => sweepListed now rest db
               end
          else sweepListed now rest db
      end
  end.

(** Does the loop delete the key of this entry? *)
Definition sweeps (now : Z) (urlData : Listed) : bool :=
  match parseRFC3339 (listed_expires_at urlData) with
  | None => false
  | Some expiresAt => expiresAt <? now
  end.

(** [cleanUpExpiredLinks], the clock read as [now]. *)
Definition cleanUpExpiredLinks (now : Z) (db : gmap string string) : gmap string string :=
  sweepListed now (ListURLs now db) db.

(** [shortenHandler]; [time.Now().Unix()] reads [now]; [body = None] is a
    body that [c.BindJSON] rejects. *)
Definition shortenHandler (now : Z) (body : option ShortenBody) (db : gmap string string)
  : Response * gmap string string :=
  match body with
  | None => (ErrorJSON 400 "Invalid request body", db)
  | Some body =>
      if (URL body =? "")%string then (ErrorJSON 400 "Invalid request body", db)
      else if negb (isValidURL (URL body))
      then (ErrorJSON 400 "Invalid URL. Must start with http:// or https://", db)
      else
        let chosen :=
          if negb (CustomCode body =? "")%string
          then
            if negb (isValidCode (CustomCode body))
            then inl (ErrorJSON 400 "Invalid custom code. Use only letters and numbers")
            else
              match GetURL (CustomCode body) db with
              | Some _ => inl (ErrorJSON 409 "Custom code already in use")
              | None => inr (CustomCode body, db)
              end
          else
            match GetNextID db with
            | None => inl (ErrorJSON 500 "Failed to generate short code")
            | Some (id, db') => inr (encodeBase62 id, db')
            end in
        match chosen with
        | inl failure => (failure, db)
        | inr (code, db') =>
            let data := {| LongURL := URL body; Clicks := 0;
                           CreatedAt := now; Expiry := storedExpiry body |} in
            match SaveURL code data db' with
            | None => (ErrorJSON StatusInternalServerError "Error saving URL", db')
            | Some db'' =>
                (ShortenedJSON 200 ("http://localhost:8080/" +:+ code)%string, db'')
            end
        end
  end.

(** [handleRedirects]; [code] is [c.Param("code")]. *)
Definition handleRedirects (now : Z) (code : string) (db : gmap string string)
  : Response * gmap string string :=
  match GetURL code db with
  | None => (ErrorJSON 404 "URL not found", db)
  | Some data =>
      if negb (Expiry data =? 0) && IsExpired data now
      then (ErrorJSON 410 "URL expired", db)
      else
        let data := {| LongURL := LongURL data; Clicks := wrap64 (Clicks data + 1);
                       CreatedAt := CreatedAt data; Expiry := Expiry data |} in
        match SaveURL code data db with
        | None => (ErrorJSON 500 "Failed to update clicks", db)
        | Some db' => (Redirect StatusFound (LongURL data), db')
        end
  end.

(** [deleteHandle]. *)
Definition deleteHandle (code : string) (db : gmap string string)
  : Response * gmap string string :=
  match DeleteURL code db with
  | None => (ErrorJSON StatusNotFound "Short URL not found or could not be deleted", db)
  | Some db' => (Status StatusNoContent, db')
  end.

End WithCodec.

(** A compact JSON writer and reader for one record, standing in for
    [encoding/json] where a concrete [DataCodec] is wanted. *)
Definition putRecord (data : URLData) : string -> string :=
  JSONCodec.lit "{" ∘
  JSONCodec.putString "long_url" ∘ JSONCodec.lit ":" ∘
    JSONCodec.putString (LongURL data) ∘ JSONCodec.lit "," ∘
  JSONCodec.putString "clicks" ∘ JSONCodec.lit ":" ∘
    JSONCodec.putInt (Clicks data) ∘ JSONCodec.lit "," ∘
  JSONCodec.putString "created_at" ∘ JSONCodec.lit ":" ∘
    JSONCodec.putInt (CreatedAt data) ∘ JSONCodec.lit "," ∘
  JSONCodec.putString "expiry" ∘ JSONCodec.lit ":" ∘
    JSONCodec.putInt (Expiry data) ∘
  JSONCodec.lit "}".

Definition readRecord (s : string) : option URLData :=
  match JSONCodec.readURLData s with
  | Some (data, rest) =>
      match JSONCodec.skipSpace rest with
      | EmptyString => Some data
      | _ => None
      end
  | None => None
  end.

#[export] Instance jsonData : DataCodec :=
  {| marshal := fun data => putRecord data EmptyString; unmarshalData := readRecord |}.

End Redis.

(** ** The RFC 3339 text of an instant

    Package [time] is a library, not part of the sources. Where a concrete
    [TimeLayout] is wanted, this one writes the instant [time.Unix(sec, 0)]
    in UTC as [Format(time.RFC3339)] does -- the proleptic Gregorian date
    with the year as [appendInt(b, year, 4)] writes it, a sign and more than
    four digits where it takes them -- and reads that text back as
    [time.Parse(time.RFC3339, s)] does: the year is four digits, no more and
    no fewer. Of the zones only the [Z] the writer puts is read. *)

Module RFC3339.

(** The date [days] days after 1 January 1970, as (year, month, day). *)
Definition civil (days : Z) : Z * Z * Z :=
  let z := days + 719468 in
  let era := z / 146097 in
  let doe := z - era * 146097 in
  let yoe := (doe - doe / 1460 + doe / 36524 - doe / 146096) / 365 in
  let doy := doe - (365 * yoe + yoe / 4 - yoe / 100) in
  let mp := (5 * doy + 2) / 153 in
  let day := doy - (153 * mp + 2) / 5 + 1 in
  let month := if mp <? 10 then mp + 3 else mp - 9 in
  (yoe + era * 400 + (if month <=? 2 then 1 else 0), month, day).

(** The days from 1 January 1970 to a date. *)
Definition daysTo (year month day : Z) : Z :=
  let y := if month <=? 2 then year - 1 else year in
  let era := y / 400 in
  let yoe := y - era * 400 in
  let mp := if 2 <? month then month - 3 else month + 9 in
  let doy := (153 * mp + 2) / 5 + day - 1 in
  era * 146097 + (yoe * 365 + yoe / 4 - yoe / 100 + doy) - 719468.

Definition isLeap (year : Z) : bool :=
  (year mod 4 =? 0) && (negb (year mod 100 =? 0) || (year mod 400 =? 0)).

Definition daysIn (year month : Z) : Z :=
  if month =? 2 then (if isLeap year then 29 else 28)
  else if (month =? 4) || (month =? 6) || (month =? 9) || (month =? 11) then 30
  else 31.

Fixpoint zeros (n : nat) (k : string) : string :=
  match n with
  | O => k
  | S n' => String "0"%char (zeros n' k)
  end.

(** [appendInt(b, x, width)]: a sign for a negative [x], then its digits,
    padded with zeros to [width]. *)
Definition appendInt (width : nat) (x : Z) (k : string) : string :=
  let digits := JSONCodec.putInt (Z.abs x) EmptyString in
  let padded := zeros (width - String.length digits) (JSONCodec.lit digits k) in
  if x <? 0 then String "-"%char padded else padded.

Definition format (sec : Z) : string :=
  let '(year, month, day) := civil (sec / 86400) in
  let clock := sec mod 86400 in
  (appendInt 4 year ∘ JSONCodec.lit "-" ∘
   appendInt 2 month ∘ JSONCodec.lit "-" ∘
   appendInt 2 day ∘ JSONCodec.lit "T" ∘
   appendInt 2 (clock / 3600) ∘ JSONCodec.lit ":" ∘
   appendInt 2 (clock mod 3600 / 60) ∘ JSONCodec.lit ":" ∘
   appendInt 2 (clock mod 60) ∘ JSONCodec.lit "Z") EmptyString.

(** Exactly [n] digits. *)
Fixpoint digits (n : nat) (acc : Z) (s : string) : option (Z * string) :=
  match n with
  | O => Some (acc, s)
  | S n' =>
      match s with
      | String c s' =>
          match JSONCodec.digitOf c with
          | Some d => digits n' (acc * 10 + d) s'
          | None => None
          end
      | EmptyString => None
      end
  end.

Definition parse (s : string) : option Z :=
  '(year, s) ← digits 4 0 s; s ← JSONCodec.expect "-" s;
  '(month, s) ← digits 2 0 s; s ← JSONCodec.expect "-" s;
  '(day, s) ← digits 2 0 s; s ← JSONCodec.expect "T" s;
  '(hour, s) ← digits 2 0 s; s ← JSONCodec.expect ":" s;
  '(minute, s) ← digits 2 0 s; s ← JSONCodec.expect ":" s;
  '(second, s) ← digits 2 0 s;
  if (s =? "Z")%string &&
     (1 <=? month) && (month <=? 12) && (1 <=? day) && (day <=? daysIn year month) &&
     (hour <? 24) && (minute <? 60) && (second <? 60)
  then Some (daysTo year month day * 86400 + hour * 3600 + minute * 60 + second)
  else None.

#[export] Instance layout : Redis.TimeLayout :=
  {| Redis.formatRFC3339 := format; Redis.parseRFC3339 := parse |}.

End RFC3339.

(** ** Notions used to state further properties *)

(** The snapshot file holds the marshalled counter and map of the memory. *)
Definition inSync {codec : Json.Codec} (w : Json.World) : Prop :=
  Json.files w !! Json.filename =
    Some (Json.marshalIndent (Json.mkStore (Json.idCounter w) (Json.urlStore w))).


(** A store on which the custom code [1] is taken while the counter is 0. *)
Definition takenWorld : Json.World :=
  Json.mkWorld 0 {[ "1"%string := Scenario.liveRecord ]} false ∅.

(** Every entry of the limiter table counts between 1 and [maxRequests]. *)
Definition countsBounded (rl : gmap string Limiter.rateLimiter) : Prop :=
  forall ip limiter, rl !! ip = Some limiter ->
    1 <= Limiter.requests limiter <= Limiter.maxRequests.

(** [k] calls of [GetNextID] in a row, oldest identifier first; [None] as
    soon as one fails. *)
Fixpoint nextIDs (k : nat) (db : gmap string string) : option (list Z * gmap string string) :=
  match k with
  | O => Some ([], db)
  | S k' =>
      match Redis.GetNextID db with
      | None => None
      | Some (id, db') =>
          match nextIDs k' db' with
          | None => None
          | Some (ids, db'') => Some (id :: ids, db'')
          end
      end
  end.

(** Does the memory differ from the snapshot after this access? A write to
    the counter or the map makes it so, [saveStore] ends it. *)
Definition dirtyAfter {X : Type} (e : Json.event X) (dirty : bool) : bool :=
  match e with
  | Json.SaveStore => false
  | Json.WriteCounter _ | Json.MapStore _ _ | Json.MapDelete _ => true
  | _ => dirty
  end.

(** A program that, on every path, returns only after it has saved what it
    wrote; [dirty] tells whether there are unsaved writes when it starts. *)
Inductive persists {A : Type} : bool -> Json.prog A -> Prop :=
| persists_Ret (a : A) : persists false (@Json.Ret A a)
| persists_Vis {X : Type} (dirty : bool) (e : Json.event X) (k : X -> Json.prog A) :
    (forall x, persists (dirtyAfter e dirty) (k x)) -> persists dirty (@Json.Vis A X e k).

(** The limiter tables a running server can hold: it starts empty, and is
    changed by the middleware and by the periodic [cleanRateLimiters]. *)
Inductive reachable : gmap string Limiter.rateLimiter -> Prop :=
| reach_start : reachable ∅
| reach_attempt (now : Z) (ip : string) (rl : gmap string Limiter.rateLimiter) :
    reachable rl -> reachable (fst (Limiter.rateLimitMiddleware now ip rl))
| reach_clean (now : Z) (rl : gmap string Limiter.rateLimiter) :
    reachable rl -> reachable (Limiter.cleanRateLimiters now rl).

(** The instant a record expires at: [expiryTime] of [ListURLs]. *)
Definition expiresAt (data : Json.URLData) : Z :=
  wrap64 (Json.CreatedAt data + Json.Expiry data).

(** A record created with [expiry_seconds] of minus 10^12: it expires some
    31 700 years before its creation. *)
Definition longPastRecord : Json.URLData :=
  Json.mkURLData Scenario.exampleURL 0 1700000000 (-1000000000000).
(** *** Facts about the encoding *)

Lemma wrap64_id z : inInt64 z -> wrap64 z = z.
Proof.
  unfold inInt64, minInt64, maxInt64, wrap64. intros Hz.
  rewrite Z.mod_small by lia. lia.
Qed.

Lemma wrap64_range z : inInt64 (wrap64 z).
Proof.
  unfold inInt64, minInt64, maxInt64, wrap64.
  pose proof (Z.mod_pos_bound (z + 2 ^ 63) (2 ^ 64) ltac:(lia)). lia.
Qed.

Lemma digitValue_byteAt i :
  0 <= i < 62 -> digitValue (byteAt base62 i) = i.
Proof.
  intros Hi.
  assert (Hall : forallb (fun k => digitValue (byteAt base62 (Z.of_nat k)) =? Z.of_nat k)
                   (seq 0 62) = true) by (vm_compute; reflexivity).
  rewrite forallb_forall in Hall.
  specialize (Hall (Z.to_nat i)).
  rewrite Z2Nat.id in Hall by lia.
  apply Z.eqb_eq, Hall, in_seq. lia.
Qed.

Lemma append_String c (s1 s2 : string) :
  (String c s1 +:+ s2)%string = String c (s1 +:+ s2)%string.
Proof. reflexivity. Qed.

Lemma append_assoc (s1 s2 s3 : string) :
  ((s1 +:+ s2) +:+ s3)%string = (s1 +:+ (s2 +:+ s3))%string.
Proof.
  induction s1 as [|c s1 IH]; [reflexivity|].
  rewrite !append_String. now rewrite IH.
Qed.

Lemma encodeLoop_app fuel : forall n r,
  encodeLoop fuel n r = (encodeLoop fuel n EmptyString +:+ r)%string.
Proof.
  induction fuel as [|fuel IH]; intros n r; simpl; [reflexivity|].
  destruct (0 <? n); [|reflexivity].
  rewrite IH. rewrite (IH _ (String _ EmptyString)).
  rewrite append_assoc. reflexivity.
Qed.

Lemma decodeFrom_app s1 : forall acc s2,
  decodeFrom acc (s1 +:+ s2) = decodeFrom (decodeFrom acc s1) s2.
Proof.
  induction s1 as [|c s1 IH]; intros acc s2; [reflexivity|].
  rewrite append_String. cbn [decodeFrom]. apply IH.
Qed.

Lemma decode_encodeLoop fuel : forall n,
  0 <= n < 2 ^ Z.of_nat fuel ->
  decodeBase62 (encodeLoop fuel n EmptyString) = n.
Proof.
  unfold decodeBase62.
  induction fuel as [|fuel IH]; intros n Hn.
  - simpl in *. lia.
  - cbn [encodeLoop]. destruct (Z.ltb_spec 0 n) as [Hpos|Hz]; [|simpl; lia].
    rewrite encodeLoop_app, decodeFrom_app.
    assert (Hq : 0 <= Z.quot n 62 < 2 ^ Z.of_nat fuel).
    { rewrite Z.quot_div_nonneg by lia.
      rewrite Nat2Z.inj_succ, Z.pow_succ_r in Hn by lia.
      split; [apply Z.div_pos; lia|].
      apply Z.div_lt_upper_bound; lia. }
    rewrite (IH _ Hq). cbn [decodeFrom].
    rewrite digitValue_byteAt.
    + pose proof (Z.quot_rem' n 62). lia.
    + rewrite Z.rem_mod_nonneg by lia. apply Z.mod_pos_bound. lia.
Qed.

Lemma log2_fuel n : 0 < n -> 0 <= n < 2 ^ Z.of_nat (S (Z.to_nat (Z.log2 n))).
Proof.
  intros Hn. pose proof (Z.log2_nonneg n).
  rewrite Nat2Z.inj_succ, Z2Nat.id by lia.
  pose proof (Z.log2_spec n Hn). lia.
Qed.

(** The decoder inverts the encoder on every non-negative integer. *)
Lemma decode_encodeBase62 n : 0 <= n -> decodeBase62 (encodeBase62 n) = n.
Proof.
  intros Hn. unfold encodeBase62.
  destruct (Z.eqb_spec n 0) as [->|Hne]; [reflexivity|].
  apply decode_encodeLoop, log2_fuel. lia.
Qed.

Lemma encodeBase62_inj n m :
  0 <= n -> 0 <= m -> encodeBase62 n = encodeBase62 m -> n = m.
Proof.
  intros Hn Hm Heq.
  rewrite <- (decode_encodeBase62 n Hn), <- (decode_encodeBase62 m Hm).
  now rewrite Heq.
Qed.

(** The loop has left before the fuel runs out: more fuel, same code. *)
Lemma encodeLoop_fuel_enough fuel : forall n r extra,
  n < 2 ^ Z.of_nat fuel ->
  encodeLoop (fuel + extra) n r = encodeLoop fuel n r.
Proof.
  induction fuel as [|fuel IH]; intros n r extra Hn.
  - simpl in Hn. destruct extra; simpl; [reflexivity|].
    destruct (Z.ltb_spec 0 n); [lia|reflexivity].
  - cbn [Nat.add encodeLoop]. destruct (Z.ltb_spec 0 n) as [Hpos|]; [|reflexivity].
    apply IH. rewrite Z.quot_div_nonneg by lia.
    rewrite Nat2Z.inj_succ, Z.pow_succ_r in Hn by lia.
    apply Z.div_lt_upper_bound; lia.
Qed.

(** Negative arguments skip the loop: the code is the empty string. *)
Lemma encodeBase62_neg n : n < 0 -> encodeBase62 n = EmptyString.
Proof.
  intros Hn. unfold encodeBase62.
  destruct (Z.eqb_spec n 0); [lia|].
  cbn [encodeLoop]. destruct (Z.ltb_spec 0 n); [lia|reflexivity].
Qed.

(** ** The rate limiter *)

Section LimiterFacts.
Import Limiter.

Lemma Since_window now t :
  (rateLimitWindow <? Since now t) = (rateLimitWindow <? now - t).
Proof.
  unfold Since, Sub, rateLimitWindow, Minute, Second, maxInt64, minInt64.
  destruct (Z.ltb_spec (2 ^ 63 - 1) (now - t)); [|destruct (Z.ltb_spec (now - t) (- 2 ^ 63))];
    destruct (Z.ltb_spec (1 * (60 * 1000000000)) (now - t)); try reflexivity;
    try (symmetry; apply Z.ltb_lt; lia); try (symmetry; apply Z.ltb_ge; lia);
    try (apply Z.ltb_lt; lia); try (apply Z.ltb_ge; lia).
Qed.

Lemma middleware_fresh now ip rl :
  startsWindow now ip rl = true ->
  rateLimitMiddleware now ip rl =
    (<[ip := {| lastRequest := now; requests := 1 |}]> rl, Next).
Proof.
  unfold startsWindow, rateLimitMiddleware.
  destruct (rl !! ip) as [limiter|]; [|reflexivity].
  now intros ->.
Qed.

Lemma middleware_other now ip ip' rl :
  ip' <> ip -> fst (rateLimitMiddleware now ip' rl) !! ip = rl !! ip.
Proof.
  intros Hne. unfold rateLimitMiddleware.
  destruct (rl !! ip') as [limiter|]; cbn [fst].
  - destruct (rateLimitWindow <? _); cbn [fst].
    + now rewrite lookup_insert_ne.
    + destruct (maxRequests <=? _); cbn [fst]; [reflexivity|].
      now rewrite lookup_insert_ne.
  - now rewrite lookup_insert_ne.
Qed.

Lemma startsWindow_other now t ip ip' rl :
  ip' <> ip ->
  startsWindow now ip (fst (rateLimitMiddleware t ip' rl)) = startsWindow now ip rl.
Proof.
  intros Hne. unfold startsWindow. now rewrite middleware_other.
Qed.

(** Inside a window: an entry with count [c] admits [5 - c] further attempts
    of its client and refuses every later one. *)
Lemma outcomes_in_window ip attempts : forall rl t c,
  rl !! ip = Some {| lastRequest := t; requests := c |} ->
  1 <= c <= 5 ->
  sameWindow ip attempts rl ->
  outcomesOf ip attempts rl =
    repeat Next (Nat.min (Z.to_nat (5 - c)) (attemptsOf ip attempts)) ++
    repeat rateLimited (attemptsOf ip attempts - Z.to_nat (5 - c)).
Proof.
  induction attempts as [|[now ip'] rest IH]; intros rl t c Hrl Hc Hsame.
  - cbn. now rewrite Nat.min_0_r.
  - cbn [sameWindow] in Hsame. destruct Hsame as [Hno Hrest].
    cbn [outcomesOf]. unfold attemptsOf. rewrite filter_cons. cbn [snd].
    destruct (rateLimitMiddleware now ip' rl) as [rl' outcome] eqn:Hstep.
    cbn [fst] in Hrest.
    destruct (decide (ip' = ip)) as [->|Hne].
    + specialize (Hno eq_refl).
      unfold startsWindow in Hno. rewrite Hrl in Hno. cbn [lastRequest] in Hno.
      unfold rateLimitMiddleware in Hstep. rewrite Hrl in Hstep.
      cbn [lastRequest requests] in Hstep. rewrite Hno in Hstep.
      unfold maxRequests in Hstep.
      destruct (Z.leb_spec 5 c) as [Hfull|Hroom].
      * injection Hstep as <- <-.
        assert (c = 5) as -> by lia.
        rewrite (IH rl t 5 Hrl ltac:(lia) Hrest).
        change (Z.to_nat (5 - 5)) with 0%nat.
        cbn [Nat.min repeat app length]. rewrite !Nat.sub_0_r. reflexivity.
      * injection Hstep as <- <-.
        rewrite wrap64_id in * by (unfold inInt64, minInt64, maxInt64; lia).
        pose proof (lookup_insert_eq rl ip (mkRateLimiter now (c + 1))) as Hnew.
        rewrite (IH _ now (c + 1) Hnew ltac:(lia) Hrest).
        fold (attemptsOf ip rest). cbn [length].
        replace (Z.to_nat (5 - c)) with (S (Z.to_nat (5 - (c + 1)))) by lia.
        cbn [Nat.min repeat app Nat.sub]. reflexivity.
    + assert (Hrl' : rl' !! ip = Some {| lastRequest := t; requests := c |}).
      { replace rl' with (fst (rateLimitMiddleware now ip' rl)) by now rewrite Hstep.
        now rewrite middleware_other. }
      exact (IH rl' t c Hrl' Hc Hrest).
Qed.

Lemma last_cons {A : Type} (x d : A) (l : list A) :
  List.last (x :: l) d = List.last l x.
Proof.
  revert x d. induction l as [|y l IH]; intros x d; [reflexivity|].
  change (List.last (x :: y :: l) d) with (List.last (y :: l) d).
  now rewrite (IH y d), (IH y x).
Qed.

(** Inside a window the entry follows the admitted attempts: its timestamp
    is the instant of the latest attempt of the client that was admitted, a
    refused attempt writing nothing, and its count stops at 5. *)
Lemma entry_in_window ip attempts : forall rl t c,
  rl !! ip = Some {| lastRequest := t; requests := c |} ->
  1 <= c <= 5 ->
  sameWindow ip attempts rl ->
  serve attempts rl !! ip =
    Some {| lastRequest := List.last (take (Z.to_nat (5 - c)) (timesOf ip attempts)) t;
            requests := Z.min 5 (c + Z.of_nat (attemptsOf ip attempts)) |}.
Proof.
  induction attempts as [|[now ip'] rest IH]; intros rl t c Hrl Hc Hsame.
  - cbn [serve]. unfold timesOf, attemptsOf. rewrite filter_nil. cbn [map length].
    rewrite take_nil. cbn [List.last]. rewrite Hrl. do 2 f_equal. lia.
  - cbn [sameWindow] in Hsame. destruct Hsame as [Hno Hrest].
    cbn [serve]. unfold timesOf, attemptsOf. rewrite filter_cons. cbn [snd].
    destruct (rateLimitMiddleware now ip' rl) as [rl' outcome] eqn:Hstep.
    cbn [fst] in Hrest |- *.
    destruct (decide (ip' = ip)) as [->|Hne].
    + specialize (Hno eq_refl).
      unfold startsWindow in Hno. rewrite Hrl in Hno. cbn [lastRequest] in Hno.
      unfold rateLimitMiddleware in Hstep. rewrite Hrl in Hstep.
      cbn [lastRequest requests] in Hstep. rewrite Hno in Hstep.
      unfold maxRequests in Hstep. cbn [map fst length].
      fold (timesOf ip rest). fold (attemptsOf ip rest).
      destruct (Z.leb_spec 5 c) as [Hfull|Hroom].
      * injection Hstep as <- <-.
        assert (c = 5) as -> by lia.
        rewrite (IH rl t 5 Hrl ltac:(lia) Hrest).
        change (Z.to_nat (5 - 5)) with 0%nat. rewrite !take_0.
        do 2 f_equal. lia.
      * injection Hstep as <- <-.
        rewrite wrap64_id in * by (unfold inInt64, minInt64, maxInt64; lia).
        pose proof (lookup_insert_eq rl ip (mkRateLimiter now (c + 1))) as Hnew.
        rewrite (IH _ now (c + 1) Hnew ltac:(lia) Hrest).
        replace (Z.to_nat (5 - c)) with (S (Z.to_nat (5 - (c + 1)))) by lia.
        rewrite firstn_cons, last_cons. do 2 f_equal. lia.
    + assert (Hrl' : rl' !! ip = Some {| lastRequest := t; requests := c |}).
      { replace rl' with (fst (rateLimitMiddleware now ip' rl)) by now rewrite Hstep.
        now rewrite middleware_other. }
      exact (IH rl' t c Hrl' Hc Hrest).
Qed.

(** On an entry [(t, c)] an attempt is answered by the reset to [(now, 1)]
    exactly when it comes more than the window after [t]. *)
Lemma middleware_resets_iff now ip rl t c :
  rl !! ip = Some {| lastRequest := t; requests := c |} ->
  1 <= c <= 5 ->
  rateLimitMiddleware now ip rl =
    (<[ip := {| lastRequest := now; requests := 1 |}]> rl, Next) <->
  now - t > rateLimitWindow.
Proof.
  intros Hrl Hc. unfold rateLimitMiddleware. rewrite Hrl. cbn [lastRequest requests].
  rewrite Since_window.
  destruct (Z.ltb_spec rateLimitWindow (now - t)) as [Hold|Hin].
  - split; [lia|reflexivity].
  - split; [|lia]. intros Hreset. exfalso. unfold maxRequests in Hreset.
    destruct (Z.leb_spec 5 c) as [Hfull|Hroom]; [discriminate|].
    injection Hreset as Hmap.
    apply (f_equal (fun m => m !! ip)) in Hmap.
    rewrite !lookup_insert_eq in Hmap. injection Hmap as Hcount.
    rewrite wrap64_id in Hcount by (unfold inInt64, minInt64, maxInt64; lia). lia.
Qed.

End LimiterFacts.

(** C1 (as amended). For every client: an attempt that finds no entry for the
    client, or finds one whose [lastRequest] lies more than the 60 s window
    back, resets the entry to [(now, 1)] and is admitted; of the attempts of
    that client which follow without starting a new window, exactly the first
    four are admitted (five with the resetting one) and the sixth and every
    later one is refused with status 429. [lastRequest] is the instant of the
    client's latest admitted attempt, not the start of its window: after
    these attempts the entry holds the instant of the last of them that was
    admitted -- every admitted attempt writes its own instant, a refused one
    writes nothing -- with the count of the admitted ones, and the next
    attempt of the client is answered by a reset exactly when it comes more
    than 60 s after that instant. *)
Theorem limiter_admits_five_per_window
  (ip : string) (rl : gmap string Limiter.rateLimiter) (now : Z)
  (attempts : list (Z * string)) :
  (rl !! ip = None \/
   exists limiter, rl !! ip = Some limiter /\
     now - Limiter.lastRequest limiter > Limiter.rateLimitWindow) ->
  let admitted := <[ip := Limiter.mkRateLimiter now 1]> rl in
  Limiter.sameWindow ip attempts admitted ->
  let latest := List.last (take 4 (Limiter.timesOf ip attempts)) now in
  let served := Limiter.serve attempts admitted in
  Limiter.rateLimitMiddleware now ip rl = (admitted, Limiter.Next) /\
  Limiter.outcomesOf ip attempts admitted =
    repeat Limiter.Next (Nat.min 4 (Limiter.attemptsOf ip attempts)) ++
    repeat Limiter.rateLimited (Limiter.attemptsOf ip attempts - 4) /\
  served !! ip =
    Some (Limiter.mkRateLimiter latest
            (Z.min 5 (1 + Z.of_nat (Limiter.attemptsOf ip attempts)))) /\
  (forall next,
     Limiter.rateLimitMiddleware next ip served =
       (<[ip := Limiter.mkRateLimiter next 1]> served, Limiter.Next) <->
     next - latest > Limiter.rateLimitWindow).
Proof.
  intros Hstart admitted Hsame latest served.
  assert (Hadmitted : admitted !! ip = Some (Limiter.mkRateLimiter now 1))
    by apply lookup_insert_eq.
  assert (Hserved : served !! ip =
            Some (Limiter.mkRateLimiter latest
                    (Z.min 5 (1 + Z.of_nat (Limiter.attemptsOf ip attempts))))).
  { exact (entry_in_window ip attempts admitted now 1 Hadmitted ltac:(lia) Hsame). }
  split; [|split; [|split]].
  - apply middleware_fresh. unfold Limiter.startsWindow.
    destruct Hstart as [->|(limiter & -> & Hold)]; [reflexivity|].
    rewrite Since_window. apply Z.ltb_lt. lia.
  - apply (outcomes_in_window ip attempts admitted now 1); [exact Hadmitted|lia|exact Hsame].
  - exact Hserved.
  - intros next. apply (middleware_resets_iff next ip served latest _ Hserved). lia.
Qed.

(** A window opened at instant 0 on an empty table and kept open for 200 s
    by attempts 50 s apart, another client in between: four more attempts
    pass, the next two are refused and leave the entry at the instant of the
    fifth, from which the 60 s then run. *)
Lemma limiter_admits_five_per_window_witness :
  let ip := "10.0.0.1"%string in
  let other := "10.0.0.2"%string in
  let s := Limiter.Second in
  let attempts :=
    [(50 * s, ip); (100 * s, ip); (110 * s, other); (150 * s, ip);
     (200 * s, ip); (250 * s, ip); (255 * s, ip)] in
  let admitted := <[ip := Limiter.mkRateLimiter 0 1]> (∅ : gmap string Limiter.rateLimiter) in
  let served := Limiter.serve attempts admitted in
  Limiter.rateLimitMiddleware 0 ip ∅ = (admitted, Limiter.Next) /\
  Limiter.outcomesOf ip attempts admitted =
    [Limiter.Next; Limiter.Next; Limiter.Next; Limiter.Next;
     Limiter.rateLimited; Limiter.rateLimited] /\
  served !! ip = Some (Limiter.mkRateLimiter (200 * s) 5) /\
  (forall next,
     Limiter.rateLimitMiddleware next ip served =
       (<[ip := Limiter.mkRateLimiter next 1]> served, Limiter.Next) <->
     next - 200 * s > Limiter.rateLimitWindow).
Proof.
  intros ip other s attempts admitted served.
  apply (limiter_admits_five_per_window ip ∅ 0 attempts).
  - left. reflexivity.
  - vm_compute. repeat split; intros; try reflexivity; discriminate.
Defined.

(** C1 as stated fails: with [windowStart] the instant at which the client's
    window was opened, an attempt more than 60 s after it is not always
    admitted. Attempts at 0, 50, 100, 150 and 200 s are all admitted without a
    reset, each refreshing [lastRequest]; the attempt at 250 s, 250 s after
    the window start, is refused and the entry stays [(200 s, 5)]. *)
Lemma limiter_window_start_counterexample :
  let ip := "10.0.0.1"%string in
  let s := Limiter.Second in
  let attempts := [(0, ip); (50 * s, ip); (100 * s, ip); (150 * s, ip); (200 * s, ip)] in
  let rl := Limiter.serve attempts ∅ in
  Limiter.windowStart ip attempts ∅ None = Some 0 /\
  250 * s - 0 > Limiter.rateLimitWindow /\
  rl !! ip = Some (Limiter.mkRateLimiter (200 * s) 5) /\
  Limiter.rateLimitMiddleware (250 * s) ip rl = (rl, Limiter.rateLimited) /\
  Limiter.rateLimitMiddleware (250 * s) ip rl <>
    (<[ip := Limiter.mkRateLimiter (250 * s) 1]> rl, Limiter.Next).
Proof.
  vm_compute. repeat split; try reflexivity; discriminate.
Qed.

(** ** The in-process variant *)

Section JsonFacts.
Import Json.
Context {codec : Codec}.

Lemma run_bind {A B : Type} (p : prog A) (f : A -> prog B) : forall w,
  run (bind p f) w =
    match run p w with
    | Some (a, w') => run (f a) w'
    | None => None
    end.
Proof.
  induction p as [a|X e k IH]; intros w; cbn [bind run]; [reflexivity|].
  destruct (handle e w) as [[x w']|]; [apply IH|reflexivity].
Qed.

Lemma run_mbind {A B : Type} (p : prog A) (f : A -> prog B) w :
  run (p ≫= f) w =
    match run p w with
    | Some (a, w') => run (f a) w'
    | None => None
    end.
Proof. apply run_bind. Qed.

Lemma run_mret {A : Type} (a : A) w : run (mret a) w = Some (a, w).
Proof. reflexivity. Qed.

Lemma run_trigger {X : Type} (e : event X) w :
  run (trigger e) w =
    match handle e w with
    | Some (x, w') => Some (x, w')
    | None => None
    end.
Proof. cbn. now destruct (handle e w) as [[x w']|]. Qed.

Lemma unguarded_bind {A B : Type} (p : prog A) (f : A -> prog B) : forall w,
  unguarded (bind p f) w =
    (unguarded p w +
     match run p w with
     | Some (a, w') => unguarded (f a) w'
     | None => 0
     end)%nat.
Proof.
  induction p as [a|X e k IH]; intros w; cbn [bind run unguarded]; [reflexivity|].
  destruct (handle e w) as [[x w']|]; [rewrite IH|]; lia.
Qed.

Lemma setMutex_release w : mutex w = false -> setMutex false (setMutex true w) = w.
Proof. destruct w; cbn; now intros ->. Qed.

(** A critical section run from a free mutex: the body runs with the mutex
    held, and the deferred unlock frees it. *)
Lemma run_lockDeferUnlock {A : Type} (body : prog A) w :
  mutex w = false ->
  run (lockDeferUnlock body) w =
    match run body (setMutex true w) with
    | Some (a, w') => Some (a, setMutex false w')
    | None => None
    end.
Proof.
  intros Hfree. unfold lockDeferUnlock, trigger.
  rewrite run_mbind. cbn [run handle]. rewrite Hfree.
  rewrite run_mbind.
  destruct (run body (setMutex true w)) as [[a w']|]; reflexivity.
Qed.

Lemma isValidURL_nonempty url : isValidURL url = true -> (url =? "")%string = false.
Proof. destruct url; [discriminate|reflexivity]. Qed.

Lemma substring_all (s : string) : String.substring 0 (String.length s) s = s.
Proof.
  induction s as [|c s IH]; cbn [String.substring String.length]; [reflexivity|].
  now rewrite IH.
Qed.

Lemma TrimPrefix_slash code : TrimPrefix ("/" +:+ code) "/" = code.
Proof.
  change ("/" +:+ code)%string with (String "/" code).
  unfold TrimPrefix. cbn [String.prefix String.length Nat.sub].
  destruct (Ascii.ascii_dec "/" "/") as [_|Hne]; [|now destruct Hne].
  assert (Hpre : String.prefix "" code = true) by (destruct code; reflexivity).
  rewrite Hpre. cbn [String.substring]. rewrite Nat.sub_0_r.
  apply substring_all.
Qed.

(** The expiry comparison, where the expiry instant fits an [int64]. *)
Lemma IsExpired_spec data now :
  inInt64 (CreatedAt data + Expiry data) ->
  IsExpired data now = (CreatedAt data + Expiry data <? now).
Proof. intros Hfit. unfold IsExpired. now rewrite wrap64_id. Qed.

End JsonFacts.

(** Runs a handler forward through its binds, returns and atomic accesses. *)
Ltac run_forward :=
  repeat first
    [ rewrite run_mbind
    | rewrite run_mret
    | rewrite run_trigger
    | progress cbn [Json.run Json.handle Json.urlStore Json.idCounter Json.mutex
                    Json.files Json.setMutex Json.setStore Json.setCounter] ].

(** C9. For every record whose expiry instant [createdAt + ttlSeconds] is
    representable as an [int64], the expiry comparison
    [now > createdAt + ttlSeconds] is false at [now = createdAt + ttlSeconds]
    and true at [now = createdAt + ttlSeconds + 1]: the comparison is strict. *)
Theorem IsExpired_boundary (data : Json.URLData) :
  inInt64 (Json.CreatedAt data + Json.Expiry data) ->
  Json.IsExpired data (Json.CreatedAt data + Json.Expiry data) = false /\
  Json.IsExpired data (Json.CreatedAt data + Json.Expiry data + 1) = true /\
  (forall now, Json.IsExpired data now = true <->
               now > Json.CreatedAt data + Json.Expiry data).
Proof.
  intros Hfit. repeat split.
  - rewrite IsExpired_spec by assumption. apply Z.ltb_irrefl.
  - rewrite IsExpired_spec by assumption. apply Z.ltb_lt. lia.
  - rewrite IsExpired_spec by assumption. intros H%Z.ltb_lt. lia.
  - rewrite IsExpired_spec by assumption. intros H. apply Z.ltb_lt. lia.
Qed.

(** A record created at 1700000000 with the default TTL. *)
Lemma IsExpired_boundary_witness :
  let data := Json.mkURLData "https://example.com" 0 1700000000 604800 in
  inInt64 (1700000000 + 604800) /\
  Json.IsExpired data 1700604800 = false /\
  Json.IsExpired data 1700604801 = true.
Proof.
  intros data. split.
  - unfold inInt64, minInt64, maxInt64. lia.
  - pose proof (IsExpired_boundary data) as H. cbn in H.
    destruct H as (H1 & H2 & _); [unfold inInt64, minInt64, maxInt64; lia|].
    split; [exact H1|exact H2].
Defined.

(** C8. On an empty store with counter 0, shortening
    [https://example.com] with no custom code and no TTL succeeds: the
    counter becomes 1, the code is its base-62 rendering [1], and the one
    record of the store carries the default TTL of 604800 seconds. *)
Theorem shorten_first_code {codec : Json.Codec} (now : Z) (fs : gmap string string) :
  let w := Json.mkWorld 0 ∅ false fs in
  let r := Scenario.shortenRequest "https://example.com" "" 0 in
  exists w',
    Json.run (Json.shortenHandler now r) w =
      Some (Json.Shortened "http://localhost:8080/1" 604800, w') /\
    encodeBase62 (Json.idCounter w') = "1"%string /\
    Json.urlStore w' =
      {[ "1"%string := Json.mkURLData "https://example.com" 0 now 604800 ]} /\
    Json.mutex w' = false.
Proof.
  intros w r. eexists. split; [reflexivity|].
  repeat split; reflexivity.
Qed.

(** C5. For every record with [createdAt = T] and [ttlSeconds = 10] (the
    instants [T] and [T + 11] being representable), a redirect on its code at
    [T + 11] answers 410 Gone and leaves the whole state as it was: the record
    is still there, its click counter unchanged. *)
Theorem redirect_expired_gone {codec : Json.Codec}
  (w : Json.World) (r : Json.Request) (code : string) (data : Json.URLData) (T : Z) :
  Json.Path r = ("/" +:+ code)%string ->
  Json.urlStore w !! code = Some data ->
  Json.CreatedAt data = T ->
  Json.Expiry data = 10 ->
  inInt64 T -> inInt64 (T + 11) ->
  exists w',
    Json.run (Json.handleRedirects (T + 11) r) w =
      Some (Json.Error "URL expired" Json.StatusGone, w') /\
    w' = w /\
    Json.Clicks <$> Json.urlStore w' !! code = Some (Json.Clicks data).
Proof.
  intros Hpath Hfound Hcreated Httl HT HT11.
  exists w. split; [|split; [reflexivity|now rewrite Hfound]].
  unfold Json.handleRedirects. rewrite Hpath, TrimPrefix_slash.
  run_forward. rewrite Hfound, Httl.
  rewrite IsExpired_spec
    by (rewrite Hcreated, Httl; unfold inInt64, minInt64, maxInt64 in *; lia).
  rewrite Hcreated, Httl.
  replace (T + 10 <? T + 11) with true by (symmetry; apply Z.ltb_lt; lia).
  reflexivity.
Qed.

(** The record [abc], created at 1700000000 with a TTL of 10 s. *)
Lemma redirect_expired_gone_witness :
  let r := Scenario.getRequest "/abc" in
  exists w',
    Json.run (codec := JSONCodec.codec)
      (Json.handleRedirects (1700000000 + 11) r) Scenario.abcWorld =
      Some (Json.Error "URL expired" Json.StatusGone, w') /\
    w' = Scenario.abcWorld /\
    Json.Clicks <$> Json.urlStore w' !! "abc"%string = Some 0.
Proof.
  intros r.
  apply (redirect_expired_gone (codec := JSONCodec.codec)
           Scenario.abcWorld r "abc" Scenario.abcRecord 1700000000);
    try reflexivity; unfold inInt64, minInt64, maxInt64; lia.
Defined.

(** C3. For every store state and every shorten request carrying a custom
    code that is a key of the store -- a request that gets as far as the
    look-up of its code, having passed what the handler checks before it:
    method POST, a decodable body, a URL starting with [http://] or
    [https://], a custom code made of letters and digits -- the request is
    refused with 409 Conflict and the state, the record under that code
    included, is exactly what it was. *)
Theorem shorten_existing_custom_code_conflict {codec : Json.Codec}
  (w : Json.World) (now : Z) (r : Json.Request) (body : Json.ShortenBody)
  (existing : Json.URLData) :
  Json.mutex w = false ->
  Json.Method r = "POST"%string ->
  Json.Body r = Some body ->
  Json.isValidURL (Json.URL body) = true ->
  Json.isValidCode (Json.CustomCode body) = true ->
  Json.urlStore w !! Json.CustomCode body = Some existing ->
  Json.run (Json.shortenHandler now r) w =
    Some (Json.Error "Custom code already in use" Json.StatusConflict, w).
Proof.
  intros Hfree Hmethod Hbody Hurl Hcode Hfound.
  unfold Json.shortenHandler. rewrite Hmethod, Hbody. cbn [String.eqb Ascii.eqb Bool.eqb negb].
  rewrite (isValidURL_nonempty _ Hurl), Hurl. cbn [negb].
  rewrite run_lockDeferUnlock by assumption.
  rewrite run_mbind.
  assert (Hne : (Json.CustomCode body =? "")%string = false).
  { destruct (Json.CustomCode body); [discriminate|reflexivity]. }
  rewrite Hne, Hcode. cbn [negb].
  run_forward. rewrite Hfound. run_forward.
  destruct w as [counter store held fs]; cbn in *. now subst held.
Qed.

(** A second request for the code [abc], with another valid URL. *)
Lemma shorten_existing_custom_code_conflict_witness :
  Json.run (codec := JSONCodec.codec)
           (Json.shortenHandler 1700000005
              (Scenario.shortenRequest "https://other.example" "abc" 0))
           Scenario.abcWorld =
    Some (Json.Error "Custom code already in use" Json.StatusConflict, Scenario.abcWorld).
Proof.
  apply (shorten_existing_custom_code_conflict (codec := JSONCodec.codec) Scenario.abcWorld 1700000005 _
           (Json.mkShortenBody "https://other.example" "abc" 0) Scenario.abcRecord);
    reflexivity.
Defined.

Section ShortenFacts.
Import Json.
Context {codec : Codec}.

Lemma run_nextCode w :
  run nextCode w =
    Some (encodeBase62 (wrap64 (idCounter w + 1)), setCounter (wrap64 (idCounter w + 1)) w).
Proof. unfold nextCode. now run_forward. Qed.

(** A request that passes every check: what it answers and what it leaves. *)
Lemma run_shortenHandler_accepted w now r body :
  mutex w = false ->
  Method r = "POST"%string ->
  Body r = Some body ->
  isValidURL (URL body) = true ->
  (CustomCode body = EmptyString \/
   (isValidCode (CustomCode body) = true /\ urlStore w !! CustomCode body = None)) ->
  let code := Json.chosenCode w body in
  let record := mkURLData (URL body) 0 now (Json.storedExpiry body) in
  run (shortenHandler now r) w =
    Some (Shortened ("http://localhost:8080/" +:+ code) (Json.storedExpiry body),
          setMutex false
            (saveStore
               (setStore (<[code := record]> (urlStore w))
                  (setCounter (chosenCounter w body) (setMutex true w))))).
Proof.
  intros Hfree Hmethod Hbody Hurl Hcustom code record.
  unfold shortenHandler. rewrite Hmethod, Hbody.
  cbn [String.eqb Ascii.eqb Bool.eqb negb].
  rewrite (isValidURL_nonempty _ Hurl), Hurl. cbn [negb].
  rewrite run_lockDeferUnlock by assumption.
  subst code record. unfold chosenCode, chosenCounter, Json.storedExpiry.
  destruct Hcustom as [Hnone|[Hvalid Hfresh]].
  - rewrite Hnone. cbn [String.eqb negb].
    rewrite run_mbind, run_mbind, run_nextCode. run_forward. reflexivity.
  - assert (Hne : (CustomCode body =? "")%string = false).
    { destruct (CustomCode body); [discriminate|reflexivity]. }
    rewrite Hne, Hvalid. cbn [negb].
    run_forward. rewrite Hfresh. run_forward.
    destruct w; reflexivity.
Qed.

End ShortenFacts.

(** C10. For every shorten request with a valid URL and a strictly negative
    [expiry_seconds] (its custom code, if it carries one, being well formed
    and free): the request succeeds and the record is stored with that
    negative value as its TTL -- the 604800 s default replaces the value 0
    only -- so that the expiry comparison already holds for the record at
    its own creation instant. *)
Theorem shorten_negative_ttl_stored {codec : Json.Codec}
  (w : Json.World) (now : Z) (r : Json.Request) (body : Json.ShortenBody) :
  Json.mutex w = false ->
  Json.Method r = "POST"%string ->
  Json.Body r = Some body ->
  Json.isValidURL (Json.URL body) = true ->
  (Json.CustomCode body = EmptyString \/
   (Json.isValidCode (Json.CustomCode body) = true /\
    Json.urlStore w !! Json.CustomCode body = None)) ->
  Json.ExpirySeconds body < 0 ->
  inInt64 (now + Json.ExpirySeconds body) ->
  let code := Json.chosenCode w body in
  let record := Json.mkURLData (Json.URL body) 0 now (Json.ExpirySeconds body) in
  exists w',
    Json.run (Json.shortenHandler now r) w =
      Some (Json.Shortened ("http://localhost:8080/" +:+ code) (Json.ExpirySeconds body), w') /\
    Json.urlStore w' = <[code := record]> (Json.urlStore w) /\
    Json.storedExpiry body = Json.ExpirySeconds body /\
    (forall body0, Json.storedExpiry body0 = Json.defaultExpiry <->
                   Json.ExpirySeconds body0 = 0 \/ Json.ExpirySeconds body0 = 604800) /\
    Json.IsExpired record now = true.
Proof.
  intros Hfree Hmethod Hbody Hurl Hcustom Hneg Hfit code record.
  assert (Hstored : Json.storedExpiry body = Json.ExpirySeconds body).
  { unfold Json.storedExpiry. destruct (Z.eqb_spec (Json.ExpirySeconds body) 0); [lia|reflexivity]. }
  eexists. split; [|split; [|split; [|split]]].
  - rewrite (run_shortenHandler_accepted w now r body) by assumption.
    rewrite Hstored. reflexivity.
  - reflexivity.
  - exact Hstored.
  - intros body0. unfold Json.storedExpiry, Json.defaultExpiry.
    destruct (Z.eqb_spec (Json.ExpirySeconds body0) 0); lia.
  - rewrite IsExpired_spec by exact Hfit. apply Z.ltb_lt. cbn. lia.
Qed.

(** A TTL of -5 s on a fresh store. *)
Lemma shorten_negative_ttl_stored_witness :
  let r := Scenario.shortenRequest "https://example.com" "" (-5) in
  let record := Json.mkURLData "https://example.com" 0 1700000000 (-5) in
  exists w',
    Json.run (codec := JSONCodec.codec) (Json.shortenHandler 1700000000 r) Scenario.freshWorld =
      Some (Json.Shortened "http://localhost:8080/1" (-5), w') /\
    Json.urlStore w' = {[ "1"%string := record ]} /\
    Json.IsExpired record 1700000000 = true.
Proof.
  intros r record.
  destruct (shorten_negative_ttl_stored (codec := JSONCodec.codec) Scenario.freshWorld
              1700000000 r (Json.mkShortenBody "https://example.com" "" (-5)))
    as (w' & Hrun & Hstore & _ & _ & Hexpired);
    [reflexivity | reflexivity | reflexivity | reflexivity | left; reflexivity
    | cbn; lia | unfold inInt64, minInt64, maxInt64; cbn; lia | ].
  exists w'. split; [exact Hrun|]. split; [exact Hstore|exact Hexpired].
Defined.

Section AllocationFacts.
Import Json.
Context {codec : Codec}.

(** While the counter stays inside [int64] the allocations hand out the
    codes of the integers that follow it. *)
Lemma run_nextCodes k : forall w,
  0 <= idCounter w ->
  idCounter w + Z.of_nat k <= maxInt64 ->
  exists w',
    run (nextCodes k) w =
      Some (encodeBase62 <$> seqZ (idCounter w + 1) (Z.of_nat k), w') /\
    idCounter w' = idCounter w + Z.of_nat k /\
    urlStore w' = urlStore w.
Proof.
  induction k as [|k IH]; intros w Hpos Hmax.
  - exists w. cbn. repeat split; lia.
  - assert (Hwrap : wrap64 (idCounter w + 1) = idCounter w + 1).
    { apply wrap64_id. unfold inInt64, minInt64, maxInt64 in *. lia. }
    destruct (IH (setCounter (idCounter w + 1) w)) as (w' & Hrun & Hcounter & Hstore);
      [cbn; lia | cbn; lia |].
    exists w'. cbn [nextCodes]. rewrite run_mbind, run_nextCode, Hwrap.
    rewrite run_mbind, Hrun, run_mret.
    rewrite (seqZ_cons (idCounter w + 1)) by lia.
    cbn [idCounter setCounter] in *.
    replace (Z.pred (Z.of_nat (S k))) with (Z.of_nat k) by lia.
    replace (Z.succ (idCounter w + 1)) with (idCounter w + 1 + 1) by lia.
    split; [reflexivity|]. split; [lia|exact Hstore].
Qed.

Lemma decode_encode_seqZ m n :
  0 <= m -> decodeBase62 <$> (encodeBase62 <$> seqZ m n) = seqZ m n.
Proof.
  intros Hm. rewrite <- list_fmap_compose.
  rewrite <- (list_fmap_id (seqZ m n)) at 2.
  apply list_fmap_ext. intros i x Hx%lookup_seqZ. cbn.
  apply decode_encodeBase62. lia.
Qed.

End AllocationFacts.

(** C6 (as amended). For every run of [k] allocations that starts from a
    non-negative counter [c] and does not take the counter past the largest
    [int64]: the codes handed out are pairwise distinct, and the integers
    they encode are [c + 1, ..., c + k], strictly increasing. *)
Theorem nextCode_distinct_increasing {codec : Json.Codec} (w : Json.World) (k : nat) :
  0 <= Json.idCounter w ->
  Json.idCounter w + Z.of_nat k <= maxInt64 ->
  exists codes w',
    Json.run (Json.nextCodes k) w = Some (codes, w') /\
    decodeBase62 <$> codes = seqZ (Json.idCounter w + 1) (Z.of_nat k) /\
    NoDup codes /\
    (forall i j a b, (i < j)%nat -> codes !! i = Some a -> codes !! j = Some b ->
                     decodeBase62 a < decodeBase62 b).
Proof.
  intros Hpos Hmax.
  destruct (run_nextCodes k w Hpos Hmax) as (w' & Hrun & _ & _).
  pose proof (decode_encode_seqZ (Json.idCounter w + 1) (Z.of_nat k) ltac:(lia)) as Hdec.
  eexists _, w'. split; [exact Hrun|]. split; [exact Hdec|]. split.
  - apply (NoDup_fmap_1 decodeBase62). rewrite Hdec. apply NoDup_seqZ.
  - intros i j a b Hij Ha Hb.
    assert (Hda : (decodeBase62 <$> (encodeBase62 <$> seqZ (Json.idCounter w + 1) (Z.of_nat k)))
                    !! i = Some (decodeBase62 a)) by now rewrite list_lookup_fmap, Ha.
    assert (Hdb : (decodeBase62 <$> (encodeBase62 <$> seqZ (Json.idCounter w + 1) (Z.of_nat k)))
                    !! j = Some (decodeBase62 b)) by now rewrite list_lookup_fmap, Hb.
    rewrite Hdec in Hda, Hdb.
    apply lookup_seqZ in Hda, Hdb. lia.
Qed.

(** Three allocations from the counter value 3. *)
Lemma nextCode_distinct_increasing_witness :
  exists codes w',
    Json.run (codec := JSONCodec.codec) (Json.nextCodes 3) Scenario.threeWorld = Some (codes, w') /\
    decodeBase62 <$> codes = [4; 5; 6] /\
    NoDup codes.
Proof.
  destruct (nextCode_distinct_increasing (codec := JSONCodec.codec) Scenario.threeWorld 3)
    as (codes & w' & Hrun & Hdec & Hnodup & _);
    [cbn; lia | unfold maxInt64; cbn; lia |].
  exists codes, w'. split; [exact Hrun|]. split; [exact Hdec|exact Hnodup].
Defined.

(** C6 as stated fails: from the counter value -3 the first two allocations
    both hand out the empty code, [encodeBase62] skipping its loop on a
    negative argument. *)
Lemma nextCode_negative_counter_counterexample :
  let w := Json.mkWorld (-3) ∅ false ∅ in
  exists w',
    Json.run (codec := JSONCodec.codec) (Json.nextCodes 2) w =
      Some ([EmptyString; EmptyString], w') /\
    ~ NoDup [EmptyString; EmptyString].
Proof.
  eexists. split; [reflexivity|].
  intros Hnodup. apply NoDup_cons in Hnodup as [Hnotin _].
  apply Hnotin. now left.
Qed.

Section SweepFacts.
Import Json.
Context {codec : Codec}.

(** The map the deletions of the sweep loop leave. *)
Lemma run_sweepLoop now entries : forall w,
  run (sweepLoop now entries) w =
    Some (tt, fold_left (fun v e => if IsExpired (snd e) now
                                    then setStore (delete (fst e) (urlStore v)) v
                                    else v) entries w).
Proof.
  induction entries as [|[code data] rest IH]; intros w; cbn [sweepLoop fold_left fst snd].
  - reflexivity.
  - rewrite run_mbind. destruct (IsExpired data now); run_forward; apply IH.
Qed.

Lemma sweep_fold_frame now entries : forall w,
  let w' := fold_left (fun v e => if IsExpired (snd e) now
                                  then setStore (delete (fst e) (urlStore v)) v
                                  else v) entries w in
  idCounter w' = idCounter w /\ mutex w' = mutex w /\ files w' = files w /\
  (forall code, urlStore w !! code = None -> urlStore w' !! code = None) /\
  (forall code data, (code, data) ∈ entries -> IsExpired data now = true ->
                     urlStore w' !! code = None) /\
  (forall code, (forall data, (code, data) ∈ entries -> IsExpired data now = false) ->
                urlStore w' !! code = urlStore w !! code).
Proof.
  induction entries as [|[code0 data0] rest IH]; intros w; cbn [fold_left fst snd].
  - repeat split; try done. intros code data Hin. by apply elem_of_nil in Hin.
  - set (v := if IsExpired data0 now then setStore (delete code0 (urlStore w)) w else w).
    destruct (IH v) as (Hc & Hm & Hf & Hnone & Hdel & Hkeep).
    assert (Hv : idCounter v = idCounter w /\ mutex v = mutex w /\ files v = files w).
    { subst v. destruct (IsExpired data0 now); done. }
    destruct Hv as (Hvc & Hvm & Hvf).
    assert (Hvnone : forall code, urlStore w !! code = None -> urlStore v !! code = None).
    { intros code Hcode. subst v. destruct (IsExpired data0 now); [|done].
      cbn. destruct (decide (code0 = code)) as [->|Hne];
        [apply lookup_delete_eq|by rewrite lookup_delete_ne]. }
    repeat split.
    + congruence.
    + congruence.
    + congruence.
    + intros code Hcode. apply Hnone, Hvnone, Hcode.
    + intros code data Hin Hexp. apply elem_of_cons in Hin as [Heq|Hin].
      * injection Heq as -> ->. apply Hnone. subst v. rewrite Hexp. cbn.
        apply lookup_delete_eq.
      * by apply (Hdel code data).
    + intros code Hall. rewrite Hkeep.
      * subst v. destruct (IsExpired data0 now) eqn:Hexp; [|done].
        cbn. destruct (decide (code0 = code)) as [->|Hne]; [|by rewrite lookup_delete_ne].
        rewrite (Hall data0) in Hexp; [done|]. apply elem_of_cons. by left.
      * intros data Hin. apply Hall. apply elem_of_cons. by right.
Qed.

End SweepFacts.

(** X26. For every store state and every sweep instant [now], the sweep runs
    to its end and leaves a store in which no record that the expiry
    comparison held for at [now] remains, every record it did not hold for is
    present and unchanged, and no code has appeared; the counter is
    untouched. *)
Theorem sweep_removes_exactly_expired {codec : Json.Codec} (w : Json.World) (now : Z) :
  Json.mutex w = false ->
  exists w',
    Json.run (Json.cleanUpExpiredLinks now) w = Some (tt, w') /\
    (forall code data, Json.urlStore w !! code = Some data ->
       Json.IsExpired data now = true -> Json.urlStore w' !! code = None) /\
    (forall code data, Json.urlStore w !! code = Some data ->
       Json.IsExpired data now = false -> Json.urlStore w' !! code = Some data) /\
    (forall code, Json.urlStore w !! code = None -> Json.urlStore w' !! code = None) /\
    Json.idCounter w' = Json.idCounter w /\
    Json.mutex w' = false.
Proof.
  intros Hfree. unfold Json.cleanUpExpiredLinks.
  rewrite run_lockDeferUnlock by assumption.
  rewrite run_mbind, run_trigger. cbn [Json.handle].
  rewrite run_mbind, run_sweepLoop, run_trigger. cbn [Json.handle].
  eexists. split; [reflexivity|].
  set (entries := map_to_list (Json.urlStore (Json.setMutex true w))).
  destruct (sweep_fold_frame now entries (Json.setMutex true w))
    as (Hc & Hm & Hf & Hnone & Hdel & Hkeep).
  cbn [Json.urlStore Json.idCounter Json.mutex Json.setMutex Json.saveStore] in *.
  repeat split.
  - intros code data Hfound Hexp. apply (Hdel code data); [|exact Hexp].
    subst entries. by apply elem_of_map_to_list.
  - intros code data Hfound Hfresh. rewrite Hkeep; [exact Hfound|].
    intros data' Hin. subst entries. apply elem_of_map_to_list in Hin.
    cbn in Hin. congruence.
  - exact Hnone.
  - exact Hc.
Qed.

(** The sweep one second after the record [abc] has expired. *)
Lemma sweep_removes_exactly_expired_witness :
  exists w',
    Json.run (codec := JSONCodec.codec) (Json.cleanUpExpiredLinks 1700000011) Scenario.abcWorld =
      Some (tt, w') /\
    Json.urlStore w' !! "abc"%string = None.
Proof.
  destruct (sweep_removes_exactly_expired (codec := JSONCodec.codec) Scenario.abcWorld 1700000011)
    as (w' & Hrun & Hdel & _); [reflexivity|].
  exists w'. split; [exact Hrun|].
  apply (Hdel "abc"%string Scenario.abcRecord); reflexivity.
Defined.

Section SnapshotFacts.
Import Json.
Context {codec : Codec}.

(** After [saveStore] the snapshot file holds the marshalled globals and the
    temporary file is gone. *)
Lemma saveStore_files w :
  files (saveStore w) !! filename =
    Some (marshalIndent {| IDCounter := idCounter w; URLStore := urlStore w |}) /\
  files (saveStore w) !! (filename +:+ ".tmp")%string = None.
Proof.
  unfold saveStore, rename. cbn [files].
  rewrite lookup_insert_eq. split.
  - apply lookup_insert_eq.
  - rewrite lookup_insert_ne by discriminate. apply lookup_delete_eq.
Qed.

(** What [loadStore] finds in the files [saveStore] left, given that the
    codec reads the saved document back. *)
Lemma loadStore_after_saveStore w restarted :
  unmarshal (marshalIndent (mkStore (idCounter w) (urlStore w))) =
    Some (mkStore (idCounter w) (urlStore w)) ->
  files restarted = files (saveStore w) ->
  loadStore restarted =
    Some {| idCounter := idCounter w; urlStore := urlStore w;
            mutex := mutex restarted; files := files restarted |}.
Proof.
  intros Hcodec Hfiles. unfold loadStore.
  rewrite Hfiles. destruct (saveStore_files w) as [-> _].
  now rewrite Hcodec.
Qed.

End SnapshotFacts.

(** C7. For every in-memory state (counter and map) that the JSON codec
    reads back from its own output: after [saveStore], a process that starts
    with the files it left -- whatever its own counter and map are --
    gets from [loadStore] exactly the counter and the map that were saved. *)
Theorem saveStore_loadStore_roundtrip {codec : Json.Codec} (w restarted : Json.World) :
  Json.unmarshal (Json.marshalIndent (Json.mkStore (Json.idCounter w) (Json.urlStore w))) =
    Some (Json.mkStore (Json.idCounter w) (Json.urlStore w)) ->
  Json.files restarted = Json.files (Json.saveStore w) ->
  exists w',
    Json.loadStore restarted = Some w' /\
    Json.idCounter w' = Json.idCounter w /\
    Json.urlStore w' = Json.urlStore w.
Proof.
  intros Hcodec Hfiles.
  rewrite (loadStore_after_saveStore w restarted Hcodec Hfiles).
  eexists. repeat split.
Qed.

(** The store with counter 3 and one record under the code [3], written and
    read back by the JSON codec in a process that starts from nothing. *)
Lemma saveStore_loadStore_roundtrip_witness :
  let saved := Json.saveStore (codec := JSONCodec.codec) Scenario.threeWorld in
  let restarted := Json.mkWorld 0 ∅ false (Json.files saved) in
  exists w',
    Json.loadStore (codec := JSONCodec.codec) restarted = Some w' /\
    Json.idCounter w' = 3 /\
    Json.urlStore w' = Json.urlStore Scenario.threeWorld.
Proof.
  intros saved restarted.
  apply (saveStore_loadStore_roundtrip (codec := JSONCodec.codec) Scenario.threeWorld restarted).
  - vm_compute. reflexivity.
  - reflexivity.
Defined.

Section MutexFacts.
Import Json.
Context {codec : Codec}.

Lemma lockFree_bind {A B : Type} (p : prog A) (f : A -> prog B) :
  lockFree p -> (forall a, lockFree (f a)) -> lockFree (bind p f).
Proof.
  intros Hp Hf. induction Hp as [a|X e k He Hk IH]; cbn [bind].
  - apply Hf.
  - constructor; assumption.
Qed.

Lemma lockFree_mbind {A B : Type} (p : prog A) (f : A -> prog B) :
  lockFree p -> (forall a, lockFree (f a)) -> lockFree (p ≫= f).
Proof. apply lockFree_bind. Qed.

Lemma lockFree_mret {A : Type} (a : A) : lockFree (mret a).
Proof. constructor. Qed.

Lemma lockFree_trigger {X : Type} (e : event X) :
  touchesStore e = true -> lockFree (trigger e).
Proof. intros He. constructor; [assumption|]. intros x. constructor. Qed.

Lemma handle_keeps_mutex {X : Type} (e : event X) w x w' :
  touchesStore e = true -> handle e w = Some (x, w') -> mutex w' = mutex w.
Proof.
  destruct e; cbn; intros He Hstep; try discriminate;
    injection Hstep as <- <-; reflexivity.
Qed.

(** Under a held mutex a program that leaves the mutex alone makes no
    unguarded access, and hands the mutex back held. *)
Lemma lockFree_guarded {A : Type} (p : prog A) :
  lockFree p -> forall w, mutex w = true ->
  unguarded p w = 0%nat /\
  (forall a w', run p w = Some (a, w') -> mutex w' = true).
Proof.
  intros Hp. induction Hp as [a|X e k He Hk IH]; intros w Hheld.
  - cbn. split; [reflexivity|]. intros a' w' [= <- <-]. assumption.
  - cbn [unguarded run]. rewrite He, Hheld. cbn [andb negb].
    destruct (handle e w) as [[x w1]|] eqn:Hstep; [|split; [reflexivity|discriminate]].
    assert (Hheld1 : mutex w1 = true).
    { rewrite (handle_keeps_mutex e w x w1 He Hstep). assumption. }
    destruct (IH x w1 Hheld1) as [Hzero Hkeep]. split; [exact Hzero|exact Hkeep].
Qed.

Lemma unguarded_lockDeferUnlock {A : Type} (body : prog A) w :
  lockFree body -> mutex w = false -> unguarded (lockDeferUnlock body) w = 0%nat.
Proof.
  intros Hbody Hfree. unfold lockDeferUnlock, trigger, mbind, prog_bind.
  cbn [bind unguarded handle touchesStore andb]. rewrite Hfree.
  rewrite unguarded_bind.
  destruct (lockFree_guarded body Hbody (setMutex true w) eq_refl) as [-> Hkeep].
  destruct (run body (setMutex true w)) as [[a w']|]; reflexivity.
Qed.

Lemma lockFree_sweepLoop now entries : lockFree (sweepLoop now entries).
Proof.
  induction entries as [|[code data] rest IH]; cbn [sweepLoop].
  - apply lockFree_mret.
  - apply lockFree_mbind; [|intros _; exact IH].
    destruct (IsExpired data now); [now apply lockFree_trigger|apply lockFree_mret].
Qed.

End MutexFacts.

(** Closes the goals [lockFree body] of the handlers' critical sections. *)
Ltac lock_free :=
  repeat first
    [ apply lockFree_mret
    | apply lockFree_sweepLoop
    | apply lockFree_trigger; reflexivity
    | apply lockFree_mbind; [|intros ?]
    | match goal with
      | |- Json.lockFree (if ?c then _ else _) => destruct c
      | |- Json.lockFree (match ?o with Some _ => _ | None => _ end) => destruct o
      | |- Json.lockFree (match ?o with inl _ => _ | inr _ => _ end) => destruct o
      | |- Json.lockFree Json.nextCode => unfold Json.nextCode
      end ].

Section LockedHandlers.
Import Json.
Context {codec : Codec}.

(** The handlers that take the mutex touch the map, the counter and the
    snapshot only while they hold it. *)
Lemma shortenHandler_guarded now r w :
  mutex w = false -> unguarded (shortenHandler now r) w = 0%nat.
Proof.
  intros Hfree. unfold shortenHandler.
  destruct (negb _); [reflexivity|].
  destruct (Body r) as [body|]; [|reflexivity].
  destruct (URL body =? "")%string; [reflexivity|].
  destruct (negb _); [reflexivity|].
  apply unguarded_lockDeferUnlock; [|assumption]. lock_free.
Qed.

Lemma deleteHandle_guarded r w :
  mutex w = false -> unguarded (deleteHandle r) w = 0%nat.
Proof.
  intros Hfree. unfold deleteHandle.
  destruct (negb _); [reflexivity|].
  apply unguarded_lockDeferUnlock; [|assumption]. lock_free.
Qed.

Lemma cleanUpExpiredLinks_guarded now w :
  mutex w = false -> unguarded (cleanUpExpiredLinks now) w = 0%nat.
Proof.
  intros Hfree. unfold cleanUpExpiredLinks.
  apply unguarded_lockDeferUnlock; [|assumption]. lock_free.
Qed.

Lemma listHandle_guarded now r w :
  mutex w = false -> unguarded (listHandle now r) w = 0%nat.
Proof.
  intros Hfree. unfold listHandle.
  destruct (negb _); [reflexivity|].
  apply unguarded_lockDeferUnlock; [|assumption]. lock_free.
Qed.

Lemma infoHandler_guarded now r w :
  mutex w = false -> unguarded (infoHandler now r) w = 0%nat.
Proof.
  intros Hfree. unfold infoHandler.
  apply unguarded_lockDeferUnlock; [|assumption]. lock_free.
Qed.

(** [handleRedirects] starts with a lookup in the map, whoever holds the
    mutex: served with the mutex free, its first access is unguarded. *)
Lemma handleRedirects_unguarded now r w :
  mutex w = false -> (1 <= unguarded (handleRedirects now r) w)%nat.
Proof.
  intros Hfree. unfold handleRedirects, trigger, mbind, prog_bind.
  cbn [bind unguarded touchesStore andb]. rewrite Hfree. cbn [negb]. lia.
Qed.

End LockedHandlers.

(** C2, where the code departs from it. [handleRedirects] takes no lock:
    served alone on a live record it makes its four store accesses (two
    lookups, the write of the click count, the snapshot) with the mutex free;
    two redirects of the same code, interleaved so that both read before
    either writes, are both answered 302 while the click count goes from 0 to
    1, not 2; and a redirect scheduled between the counter increment and the
    map insertion of a shorten request that holds the mutex writes a snapshot
    with the new counter value 1 and no record under the new code. *)
Theorem handleRedirects_not_serialized :
  let r := Scenario.getRequest "/abc" in
  let redirect := Json.handleRedirects Scenario.liveNow r in
  let shorten :=
    Json.shortenHandler Scenario.liveNow
      (Scenario.shortenRequest Scenario.exampleURL "" 0) in
  let found := Some (Json.Redirect Scenario.exampleURL Json.StatusFound) in
  Json.unguarded (codec := JSONCodec.codec) redirect Scenario.liveWorld = 4%nat /\
  (let '(ts, w') := Json.interleave (codec := JSONCodec.codec) [0; 0; 0; 0; 1; 1; 1; 1]%nat [redirect; redirect]
                      Scenario.liveWorld in
   Json.returned <$> ts = [found; found] /\
   Json.Clicks <$> Json.urlStore w' !! "abc"%string = Some 2) /\
  (let '(ts, w') := Json.interleave (codec := JSONCodec.codec) [0; 0; 1; 1; 0; 0; 1; 1]%nat [redirect; redirect]
                      Scenario.liveWorld in
   Json.returned <$> ts = [found; found] /\
   Json.Clicks <$> Json.urlStore w' !! "abc"%string = Some 1) /\
  (let '(ts, w') := Json.interleave (codec := JSONCodec.codec) [0; 0; 0; 1; 1; 1; 1]%nat [shorten; redirect]
                      Scenario.liveWorld in
   Json.returned <$> ts = [None; found] /\
   Json.mutex w' = true /\
   Json.idCounter w' = 1 /\
   Json.urlStore w' !! "1"%string = None /\
   Json.files w' !! Json.filename =
     Some (JSONCodec.showStore
             (Json.mkStore 1 {[ "abc"%string := Scenario.clickedRecord ]}))).
Proof.
  vm_compute. repeat split; reflexivity.
Qed.

(** ** The JSON codec reads back what it writes *)

Section CodecFacts.
Import Json JSONCodec.

Lemma readChars_putEscaped s : forall k,
  readChars (putEscaped s (String dquote k)) = Some (s, k).
Proof.
  induction s as [|c s IH]; intros k; cbn [putEscaped readChars].
  - reflexivity.
  - destruct (Ascii.eqb c dquote) eqn:Hq; cbn [orb].
    + cbn [readChars]. change (Ascii.eqb backslash dquote) with false.
      change (Ascii.eqb backslash backslash) with true. cbn iota.
      rewrite Hq. cbn [orb]. now rewrite IH.
    + destruct (Ascii.eqb c backslash) eqn:Hb.
      * cbn [readChars]. change (Ascii.eqb backslash dquote) with false.
        change (Ascii.eqb backslash backslash) with true. cbn iota.
        rewrite Hq, Hb. cbn [orb]. now rewrite IH.
      * cbn [readChars]. rewrite Hq, Hb. now rewrite IH.
Qed.

Lemma readString_putString s k : readString (putString s k) = Some (s, k).
Proof.
  unfold readString, putString. cbn [skipSpace].
  change (Ascii.is_space dquote) with false. cbn iota.
  change (Ascii.eqb dquote dquote) with true. cbn iota.
  apply readChars_putEscaped.
Qed.

Lemma digitChar_facts d :
  0 <= d < 10 ->
  digitOf (digitChar d) = Some d /\
  Ascii.is_space (digitChar d) = false /\
  Ascii.eqb (digitChar d) "-"%char = false.
Proof.
  intros Hd.
  assert (Hall : forallb (fun i =>
            match digitOf (digitChar (Z.of_nat i)) with
            | Some d' => d' =? Z.of_nat i
            | None => false
            end &&
            negb (Ascii.is_space (digitChar (Z.of_nat i))) &&
            negb (Ascii.eqb (digitChar (Z.of_nat i)) "-"%char)) (seq 0 10) = true)
    by (vm_compute; reflexivity).
  rewrite forallb_forall in Hall.
  specialize (Hall (Z.to_nat d)). rewrite Z2Nat.id in Hall by lia.
  assert (Hin : In (Z.to_nat d) (seq 0 10)) by (apply in_seq; lia).
  apply Hall in Hin.
  apply andb_true_iff in Hin as [Hin Hminus].
  apply andb_true_iff in Hin as [Hdigit Hspace].
  destruct (digitOf (digitChar d)) as [d'|]; [|discriminate].
  apply Z.eqb_eq in Hdigit. subst d'.
  destruct (Ascii.is_space (digitChar d)); [discriminate|].
  destruct (Ascii.eqb (digitChar d) "-"%char); [discriminate|].
  repeat split.
Qed.

Lemma readDigits_end acc k : endsNumber k -> readDigits acc k = (acc, k).
Proof.
  destruct k as [|c k]; cbn; [reflexivity|]. now intros ->.
Qed.

Lemma putDigits_S fuel n k :
  putDigits (S fuel) n k =
    if n <? 10 then String (digitChar (n mod 10)) k
    else putDigits fuel (n / 10) (String (digitChar (n mod 10)) k).
Proof. reflexivity. Qed.

(** Reading the digits written for [n] shifts the accumulator by a power of
    ten and adds [n]. *)
Lemma readDigits_putDigits fuel : forall n,
  0 <= n < 2 ^ Z.of_nat (S fuel) ->
  exists p, forall acc k,
    readDigits acc (putDigits (S fuel) n k) = readDigits (acc * p + n) k.
Proof.
  induction fuel as [|fuel IH]; intros n Hn.
  - exists 10. intros acc k. cbn [putDigits].
    change (2 ^ Z.of_nat 1) with 2 in Hn.
    destruct (Z.ltb_spec n 10); [|lia].
    cbn [readDigits]. rewrite Z.mod_small by lia.
    destruct (digitChar_facts n ltac:(lia)) as (-> & _). reflexivity.
  - destruct (Z.ltb_spec n 10) as [Hsmall|Hbig].
    + exists 10. intros acc k. rewrite putDigits_S.
      destruct (Z.ltb_spec n 10); [|lia].
      cbn [readDigits]. rewrite Z.mod_small by lia.
      destruct (digitChar_facts n ltac:(lia)) as (-> & _). reflexivity.
    + assert (Hq : 0 <= n / 10 < 2 ^ Z.of_nat (S fuel)).
      { rewrite (Nat2Z.inj_succ (S fuel)), Z.pow_succ_r in Hn by lia.
        split; [apply Z.div_pos; lia|]. apply Z.div_lt_upper_bound; lia. }
      destruct (IH (n / 10) Hq) as [p Hp].
      exists (p * 10). intros acc k. rewrite putDigits_S.
      destruct (Z.ltb_spec n 10); [lia|].
      rewrite Hp. cbn [readDigits].
      destruct (digitChar_facts (n mod 10)) as (-> & _);
        [apply Z.mod_pos_bound; lia|].
      f_equal. pose proof (Z.div_mod n 10 ltac:(lia)). lia.
Qed.

Lemma putDigits_head fuel : forall n k,
  0 <= n ->
  exists d rest, 0 <= d < 10 /\ putDigits (S fuel) n k = String (digitChar d) rest.
Proof.
  induction fuel as [|fuel IH]; intros n k Hn; rewrite putDigits_S.
  - exists (n mod 10), k. split; [apply Z.mod_pos_bound; lia|].
    now destruct (n <? 10).
  - destruct (n <? 10).
    + exists (n mod 10), k. split; [apply Z.mod_pos_bound; lia|reflexivity].
    + apply IH. apply Z.div_pos; lia.
Qed.

Lemma readNat_putDigits fuel n k :
  0 <= n < 2 ^ Z.of_nat (S fuel) ->
  endsNumber k ->
  readNat (putDigits (S fuel) n k) = Some (n, k).
Proof.
  intros Hn Hend.
  destruct (putDigits_head fuel n k ltac:(lia)) as (d & rest & Hd & Hhead).
  destruct (readDigits_putDigits fuel n Hn) as [p Hp].
  unfold readNat. rewrite Hhead.
  destruct (digitChar_facts d Hd) as (-> & _).
  rewrite <- Hhead, (Hp 0 k). cbn [Z.mul Z.add].
  now rewrite readDigits_end.
Qed.

Lemma skipSpace_putDigits fuel n k :
  0 <= n ->
  skipSpace (putDigits (S fuel) n k) = putDigits (S fuel) n k /\
  exists c rest, putDigits (S fuel) n k = String c rest /\ Ascii.eqb c "-"%char = false.
Proof.
  intros Hn.
  destruct (putDigits_head fuel n k Hn) as (d & rest & Hd & Hhead).
  destruct (digitChar_facts d Hd) as (_ & Hspace & Hminus).
  rewrite Hhead. cbn [skipSpace]. rewrite Hspace. eauto.
Qed.

Lemma readInt_putInt z k : endsNumber k -> readInt (putInt z k) = Some (z, k).
Proof.
  intros Hend. unfold readInt, putInt.
  destruct (Z.ltb_spec z 0) as [Hneg|Hpos].
  - cbn [skipSpace]. change (Ascii.is_space "-") with false. cbn iota.
    change (Ascii.eqb "-" "-") with true. cbn iota.
    rewrite readNat_putDigits by (try exact Hend; apply log2_fuel; lia).
    f_equal. f_equal. lia.
  - assert (Hfuel : 0 <= z < 2 ^ Z.of_nat (S (Z.to_nat (Z.log2 z)))).
    { destruct (Z.eq_dec z 0) as [->|Hnz]; [cbn; lia|apply log2_fuel; lia]. }
    destruct (skipSpace_putDigits (Z.to_nat (Z.log2 z)) z k Hpos)
      as (-> & c & rest & Hshape & Hminus).
    rewrite Hshape, Hminus, <- Hshape.
    now apply readNat_putDigits.
Qed.

Lemma token_skip l c s : Ascii.is_space c = true -> token l (String c s) = token l s.
Proof. intros Hc. unfold token. cbn [skipSpace]. now rewrite Hc. Qed.

Lemma token_hit c s : Ascii.is_space c = false -> token (String c EmptyString) (String c s) = Some s.
Proof.
  intros Hc. unfold token. cbn [skipSpace]. rewrite Hc. cbn [expect].
  now rewrite Ascii.eqb_refl.
Qed.

Lemma token_miss c d s :
  Ascii.is_space d = false -> Ascii.eqb c d = false ->
  token (String c EmptyString) (String d s) = None.
Proof.
  intros Hd Hcd. unfold token. cbn [skipSpace]. rewrite Hd. cbn [expect].
  now rewrite Hcd.
Qed.

Lemma readString_skip c s : Ascii.is_space c = true -> readString (String c s) = readString s.
Proof. intros Hc. unfold readString. cbn [skipSpace]. now rewrite Hc. Qed.

Lemma readInt_skip c s : Ascii.is_space c = true -> readInt (String c s) = readInt s.
Proof. intros Hc. unfold readInt. cbn [skipSpace]. now rewrite Hc. Qed.

Lemma readKey_skip name c s :
  Ascii.is_space c = true -> readKey name (String c s) = readKey name s.
Proof. intros Hc. unfold readKey. now rewrite readString_skip. Qed.

Lemma readKey_hit name s : readKey name (putString name (String ":" s)) = Some s.
Proof.
  unfold readKey. rewrite readString_putString, String.eqb_refl.
  now apply token_hit.
Qed.

End CodecFacts.

(** One step of a reader over text that a writer produced. *)
Ltac read_step :=
  first
    [ rewrite token_skip by reflexivity
    | rewrite token_hit by reflexivity
    | rewrite token_miss by reflexivity
    | rewrite readKey_skip by reflexivity
    | rewrite readKey_hit
    | rewrite readString_skip by reflexivity
    | rewrite readString_putString
    | rewrite readInt_skip by reflexivity
    | rewrite readInt_putInt by exact I
    | rewrite readInt_putInt by reflexivity
    | progress cbn [mbind option_bind JSONCodec.lit compose] ].

Section CodecRoundTrip.
Import Json JSONCodec.

Lemma readURLData_putURLData data k :
  readURLData (putURLData data k) = Some (data, k).
Proof.
  unfold readURLData, putURLData, putField, newline.
  repeat read_step. now destruct data.
Qed.

Lemma readURLData_skip c s :
  Ascii.is_space c = true -> readURLData (String c s) = readURLData s.
Proof. intros Hc. unfold readURLData. now rewrite token_skip. Qed.

Lemma readEntries_skip fuel m c s :
  Ascii.is_space c = true -> readEntries fuel m (String c s) = readEntries fuel m s.
Proof. intros Hc. destruct fuel; cbn [readEntries]; [reflexivity|]. now rewrite readString_skip. Qed.

(** Reading one written entry, up to the text that follows its record. *)
Lemma readEntries_putEntry fuel m entry k :
  readEntries (S fuel) m (putEntry entry k) =
    let m' := <[fst entry := snd entry]> m in
    match token "," k with
    | Some s => readEntries fuel m' s
    | None => s ← token "}" k; Some (m', s)
    end.
Proof.
  unfold putEntry. cbn [readEntries].
  repeat read_step.
  rewrite readURLData_skip by reflexivity.
  rewrite readURLData_putURLData. repeat read_step. reflexivity.
Qed.

Lemma readEntries_putEntries entries : forall fuel m tail k,
  entries <> [] ->
  (length entries <= fuel)%nat ->
  token "," (lit newline tail) = None ->
  token "}" (lit newline tail) = Some k ->
  readEntries fuel m (putEntries entries tail) =
    Some (foldl (fun acc entry => <[fst entry := snd entry]> acc) m entries, k).
Proof.
  induction entries as [|entry rest IH]; intros fuel m tail k Hne Hfuel Hcomma Hclose; [done|].
  destruct fuel as [|fuel]; [cbn in Hfuel; lia|].
  destruct rest as [|entry' rest].
  - cbn [putEntries foldl]. unfold compose.
    rewrite readEntries_putEntry, Hcomma, Hclose. reflexivity.
  - change (putEntries (entry :: entry' :: rest) tail)
      with (putEntry entry (String "," (String "010" (putEntries (entry' :: rest) tail)))).
    rewrite readEntries_putEntry.
    rewrite token_hit by reflexivity. cbn zeta.
    rewrite readEntries_skip by reflexivity.
    rewrite (IH fuel _ tail k); [reflexivity|done|cbn [length] in *; lia|assumption..].
Qed.

(** Every writer only adds text. *)
Lemma le_lit l : forall k n,
  (n <= String.length k)%nat -> (n <= String.length (lit l k))%nat.
Proof.
  induction l as [|c l IH]; intros k n Hn; cbn [lit String.length]; [assumption|].
  apply le_S, IH, Hn.
Qed.

Lemma le_String c k n :
  (n <= String.length k)%nat -> (n <= String.length (String c k))%nat.
Proof. intros Hn. cbn [String.length]. now apply le_S. Qed.

Lemma le_putEscaped s : forall k n,
  (n <= String.length k)%nat -> (n <= String.length (putEscaped s k))%nat.
Proof.
  induction s as [|c s IH]; intros k n Hn; cbn [putEscaped]; [assumption|].
  specialize (IH k n Hn). destruct (_ || _); cbn [String.length]; lia.
Qed.

Lemma le_putString s k n :
  (n <= String.length k)%nat -> (n <= String.length (putString s k))%nat.
Proof.
  intros Hn. unfold putString. cbn [String.length].
  apply le_S, le_putEscaped. cbn [String.length]. lia.
Qed.

Lemma le_putDigits fuel : forall z k n,
  (n <= String.length k)%nat -> (n <= String.length (putDigits fuel z k))%nat.
Proof.
  induction fuel as [|fuel IH]; intros z k n Hn; [assumption|].
  rewrite putDigits_S. destruct (z <? 10); [cbn [String.length]; lia|].
  apply IH. cbn [String.length]. lia.
Qed.

Lemma le_putInt z k n :
  (n <= String.length k)%nat -> (n <= String.length (putInt z k))%nat.
Proof.
  intros Hn. unfold putInt.
  destruct (z <? 0); [cbn [String.length]; apply le_S|]; now apply le_putDigits.
Qed.

End CodecRoundTrip.

(** Peels the writers off a goal [n <= length (writer ... k)]. *)
Ltac only_grows :=
  unfold compose;
  repeat first [ apply le_putString | apply le_putInt | apply le_String | apply le_lit ].

Section CodecStore.
Import Json JSONCodec.

Lemma le_putURLData data k n :
  (n <= String.length k)%nat -> (n <= String.length (putURLData data k))%nat.
Proof. intros Hn. unfold putURLData, putField. only_grows. exact Hn. Qed.

Lemma length_putEntry entry k :
  (S (String.length k) <= String.length (putEntry entry k))%nat.
Proof.
  unfold putEntry, compose. cbn [lit String.length]. apply le_n_S.
  do 3 apply le_S. apply le_putString. do 2 apply le_String.
  now apply le_putURLData.
Qed.

Lemma length_putEntries entries : forall k,
  (length entries + String.length k <= String.length (putEntries entries k))%nat.
Proof.
  induction entries as [|entry rest IH]; intros k; [cbn; lia|].
  destruct rest as [|entry' rest].
  - cbn [putEntries length]. unfold compose.
    etrans; [|apply length_putEntry]. unfold newline. cbn [lit String.length]. lia.
  - change (putEntries (entry :: entry' :: rest) k)
      with (putEntry entry (String "," (String "010" (putEntries (entry' :: rest) k)))).
    etrans; [|apply length_putEntry]. cbn [String.length].
    specialize (IH k). cbn [length] in *. lia.
Qed.

Lemma foldl_insert_list_to_map (entries : list (string * URLData)) :
  forall m : gmap string URLData,
  foldl (fun acc entry => <[fst entry := snd entry]> acc) m entries =
  foldr (fun entry acc => <[fst entry := snd entry]> acc) m (reverse entries).
Proof.
  induction entries as [|entry rest IH]; intros m; [reflexivity|].
  cbn [foldl]. rewrite IH, reverse_cons, foldr_app. reflexivity.
Qed.

Lemma readURLStore_putURLStore m k :
  readURLStore (putURLStore m k) = Some (m, k).
Proof.
  unfold readURLStore, putURLStore.
  pose proof (merge_sort_Permutation keyLe (map_to_list m)) as Hperm.
  destruct (merge_sort keyLe (map_to_list m)) as [|entry rest] eqn:Hsorted.
  - symmetry in Hperm. apply Permutation_nil_r, map_to_list_empty_iff in Hperm. subst m.
    repeat read_step. reflexivity.
  - unfold compose. set (tail := lit "  }" k).
    assert (Hcomma : token "," (lit newline tail) = None) by reflexivity.
    assert (Hclose : token "}" (lit newline tail) = Some k) by reflexivity.
    assert (Hhead : exists s, putEntries (entry :: rest) tail =
              String " " (String " " (String " " (String " " (String dquote s))))).
    { destruct rest; cbn [putEntries]; unfold compose, putEntry, putString;
        cbn [lit compose]; eauto. }
    clearbody tail. unfold newline. cbn [lit].
    rewrite token_hit by reflexivity. cbn [mbind option_bind].
    rewrite token_skip by reflexivity.
    destruct Hhead as [s Hhead]. rewrite Hhead.
    do 4 rewrite token_skip by reflexivity.
    rewrite token_miss by reflexivity.
    rewrite <- Hhead. rewrite readEntries_skip by reflexivity.
    rewrite (readEntries_putEntries _ _ _ _ k); [|done| |assumption..].
    + f_equal. f_equal.
      rewrite foldl_insert_list_to_map.
      change (foldr _ ∅ (reverse (entry :: rest)))
        with (list_to_map (M := gmap string URLData) (reverse (entry :: rest))).
      etrans; [|apply (list_to_map_to_list m)].
      apply list_to_map_proper.
      * rewrite reverse_Permutation, Hperm. apply NoDup_fst_map_to_list.
      * now rewrite reverse_Permutation.
    + cbn [String.length].
      pose proof (length_putEntries (entry :: rest) tail). lia.
Qed.

Lemma readURLStore_skip c s :
  Ascii.is_space c = true -> readURLStore (String c s) = readURLStore s.
Proof. intros Hc. unfold readURLStore. now rewrite token_skip. Qed.

(** The reader inverts the writer on every snapshot document. *)
Lemma readStore_showStore store : readStore (showStore store) = Some store.
Proof.
  unfold readStore, showStore, putStore, putField, newline.
  repeat read_step.
  rewrite readURLStore_skip by reflexivity.
  rewrite readURLStore_putURLStore. repeat read_step.
  now destruct store.
Qed.

(** With this codec every state is restored from its snapshot: the
    in-memory counter and map after [saveStore] and a restart are those
    before. *)
Lemma saveStore_loadStore_json w restarted :
  files restarted = files (saveStore (codec := codec) w) ->
  loadStore (codec := codec) restarted =
    Some {| idCounter := idCounter w; urlStore := urlStore w;
            mutex := mutex restarted; files := files restarted |}.
Proof.
  intros Hfiles.
  apply (loadStore_after_saveStore (codec := codec) w restarted); [|exact Hfiles].
  apply readStore_showStore.
Qed.

End CodecStore.

(** ** The Redis-backed variant: the same properties of its handlers *)

Section RedisFacts.
Import Json Redis.
Context {codec : DataCodec} {layout : TimeLayout}.

(** A custom code under which a record is stored is refused with 409, the
    database untouched (C3 on this variant). *)
Lemma redis_shorten_existing_custom_code db now body existing :
  isValidURL (URL body) = true ->
  isValidCode (CustomCode body) = true ->
  GetURL (CustomCode body) db = Some existing ->
  shortenHandler now (Some body) db = (ErrorJSON 409 "Custom code already in use", db).
Proof.
  intros Hurl Hcode Hfound. unfold shortenHandler.
  rewrite (isValidURL_nonempty _ Hurl), Hurl. cbn [negb].
  assert (Hne : (CustomCode body =? "")%string = false).
  { destruct (CustomCode body); [discriminate|reflexivity]. }
  now rewrite Hne, Hcode, Hfound.
Qed.

(** A redirect past the expiry instant answers 410 and writes nothing (C5 on
    this variant). *)
Lemma redis_redirect_expired db code data T :
  GetURL code db = Some data ->
  CreatedAt data = T -> Expiry data = 10 ->
  inInt64 T -> inInt64 (T + 11) ->
  handleRedirects (T + 11) code db = (ErrorJSON 410 "URL expired", db).
Proof.
  intros Hfound Hcreated Httl HT HT11. unfold handleRedirects.
  rewrite Hfound, Httl.
  rewrite IsExpired_spec
    by (rewrite Hcreated, Httl; unfold inInt64, minInt64, maxInt64 in *; lia).
  rewrite Hcreated, Httl.
  replace (T + 10 <? T + 11) with true by (symmetry; apply Z.ltb_lt; lia).
  reflexivity.
Qed.

(** A negative [expiry_seconds] is stored as it is (C10 on this variant),
    here for a request with a free, well-formed custom code. *)
Lemma redis_shorten_negative_ttl db now body :
  isValidURL (URL body) = true ->
  isValidCode (CustomCode body) = true ->
  GetURL (CustomCode body) db = None ->
  ExpirySeconds body < 0 ->
  shortenHandler now (Some body) db =
    (ShortenedJSON 200 ("http://localhost:8080/" +:+ CustomCode body),
     <[CustomCode body :=
         marshal (mkURLData (URL body) 0 now (ExpirySeconds body))]> db).
Proof.
  intros Hurl Hcode Hfree Hneg. unfold shortenHandler.
  rewrite (isValidURL_nonempty _ Hurl), Hurl. cbn [negb].
  assert (Hne : (CustomCode body =? "")%string = false).
  { destruct (CustomCode body); [discriminate|reflexivity]. }
  rewrite Hne, Hcode, Hfree. cbn [negb SaveURL].
  unfold storedExpiry. destruct (Z.eqb_spec (ExpirySeconds body) 0); [lia|reflexivity].
Qed.

End RedisFacts.

Section RedisCounter.
Import Json Redis.

Lemma parseCounter_putInt n :
  inInt64 n -> parseCounter (JSONCodec.putInt n EmptyString) = Some n.
Proof.
  intros [Hlo Hhi]. unfold parseCounter.
  rewrite readInt_putInt by exact I. rewrite String.eqb_refl.
  destruct (Z.leb_spec minInt64 n); [|lia].
  destruct (Z.leb_spec n maxInt64); [|lia]. reflexivity.
Qed.

(** [GetNextID] on a counter key that holds [n]: the next identifier is
    [n + 1], and the key holds it afterwards. *)
Lemma GetNextID_next db n :
  db !! counterKey = Some (JSONCodec.putInt n EmptyString) ->
  inInt64 n -> n < maxInt64 ->
  GetNextID db = Some (n + 1, <[counterKey := JSONCodec.putInt (n + 1) EmptyString]> db).
Proof.
  intros Hkey Hn Hmax. unfold GetNextID, Incr.
  rewrite Hkey, parseCounter_putInt by assumption.
  destruct (Z.ltb_spec n maxInt64); [reflexivity|lia].
Qed.

(** The record codec reads back what it writes. *)
Lemma readRecord_putRecord data : readRecord (putRecord data EmptyString) = Some data.
Proof.
  unfold readRecord, putRecord, JSONCodec.readURLData.
  repeat read_step. now destruct data.
Qed.

(** The first shorten on an empty database: counter 1, code [1], default
    TTL (C8 on this variant). *)
Lemma redis_shorten_first_code now :
  shortenHandler (codec := jsonData) now
    (Some (mkShortenBody "https://example.com" "" 0)) ∅ =
  (ShortenedJSON 200 "http://localhost:8080/1",
   <["1"%string := marshal (mkURLData "https://example.com" 0 now 604800)]>
     (<[counterKey := "1"%string]> ∅)).
Proof. reflexivity. Qed.

End RedisCounter.

Section RedisSweep.
Import Json Redis.
Context {codec : DataCodec} {layout : TimeLayout}.

Lemma sweepListed_lookup now urls : forall db code,
  (db !! code = None -> sweepListed now urls db !! code = None) /\
  ((exists urlData, urlData ∈ urls /\ listed_code urlData = code /\
                    sweeps now urlData = true) ->
   sweepListed now urls db !! code = None) /\
  ((forall urlData, urlData ∈ urls -> listed_code urlData = code ->
                    sweeps now urlData = false) ->
   sweepListed now urls db !! code = db !! code).
Proof.
  induction urls as [|urlData rest IH]; intros db code; cbn [sweepListed].
  - split; [done|]. split; [|done].
    intros (u & Hin & _). by apply elem_of_nil in Hin.
  - assert (Hstep : sweepListed now (urlData :: rest) db =
              sweepListed now rest (if sweeps now urlData
                                    then delete (listed_code urlData) db else db)).
    { cbn [sweepListed]. unfold sweeps, DeleteURL.
      destruct (parseRFC3339 _) as [expiresAt|]; [|reflexivity].
      now destruct (expiresAt <? now). }
    cbn [sweepListed] in Hstep. rewrite Hstep. clear Hstep.
    set (db1 := if sweeps now urlData then delete (listed_code urlData) db else db).
    destruct (IH db1 code) as (Hnone & Hdel & Hkeep).
    assert (Hdb1 : db !! code = None -> db1 !! code = None).
    { intros Hcode. subst db1. destruct (sweeps now urlData); [|done].
      destruct (decide (listed_code urlData = code)) as [->|Hne];
        [apply lookup_delete_eq|by rewrite lookup_delete_ne]. }
    split; [|split].
    + intros Hcode. apply Hnone, Hdb1, Hcode.
    + intros (u & Hin & Hcode & Hsweeps). apply elem_of_cons in Hin as [->|Hin].
      * apply Hnone. subst db1. rewrite Hsweeps, Hcode. apply lookup_delete_eq.
      * apply Hdel. eauto.
    + intros Hall. rewrite Hkeep.
      * subst db1. destruct (sweeps now urlData) eqn:Hsweeps; [|done].
        destruct (decide (listed_code urlData = code)) as [Hcode|Hne];
          [|by rewrite lookup_delete_ne].
        rewrite (Hall urlData) in Hsweeps; [done| |done]. apply elem_of_cons. by left.
      * intros u Hin. apply Hall. apply elem_of_cons. by right.
Qed.

Lemma elem_of_ListURLs current_time db urlData :
  urlData ∈ ListURLs current_time db <->
  exists data, GetURL (listed_code urlData) db = Some data /\
    urlData = {| listed_code := listed_code urlData;
                 listed_long_url := LongURL data;
                 listed_clicks := Clicks data;
                 listed_created_at := formatRFC3339 (CreatedAt data);
                 listed_expires_at := formatRFC3339 (wrap64 (CreatedAt data + Expiry data));
                 listed_is_expired := wrap64 (CreatedAt data + Expiry data) <? current_time |}.
Proof.
  unfold ListURLs. rewrite list_elem_of_omap. split.
  - intros ([code val] & Hin & Hsome). cbn [fst] in Hsome.
    destruct (GetURL code db) as [data|] eqn:Hget; [|discriminate].
    injection Hsome as <-. cbn [listed_code]. eauto.
  - intros (data & Hget & Heq).
    assert (Hval : exists val, db !! listed_code urlData = Some val).
    { unfold GetURL in Hget. destruct (db !! listed_code urlData); [eauto|discriminate]. }
    destruct Hval as [val Hval].
    exists (listed_code urlData, val). split; [by apply elem_of_map_to_list|].
    cbn [fst]. rewrite Hget. f_equal. symmetry. exact Heq.
Qed.

End RedisSweep.

(** C4. The sweep of the Redis-backed variant leaves an expired record in
    the database. [POST /shorten] with the custom code [old] and
    [expiry_seconds] of minus 10^12, served at 1 700 000 000 on an empty
    database, is accepted and stores a record that expires in the year
    -29665. A hundred seconds later the record is expired by the comparison
    of instants: [ListURLs] flags it [is_expired], a redirect on [old]
    answers 410, and the sweep of the in-process variant deletes the same
    record from its store. The sweep of this variant compares the instant it
    parses back from the [expires_at] text of [ListURLs]; [time.Parse] wants
    a year of four digits and refuses [-29665-02-18T20:26:40Z], the loop
    goes on to the next entry, and the database is what it was. *)
Theorem redis_sweep_keeps_expired_record :
  let body := Json.mkShortenBody Scenario.exampleURL "old" (-1000000000000) in
  let created := Redis.shortenHandler (codec := Redis.jsonData) 1700000000 (Some body) ∅ in
  let db := snd created in
  let now := 1700000100 in
  fst created = Redis.ShortenedJSON 200 "http://localhost:8080/old" /\
  Redis.GetURL (codec := Redis.jsonData) "old" db = Some longPastRecord /\
  Json.IsExpired longPastRecord now = true /\
  Redis.listed_is_expired <$>
    Redis.ListURLs (codec := Redis.jsonData) (layout := RFC3339.layout) now db = [true] /\
  Redis.listed_expires_at <$>
    Redis.ListURLs (codec := Redis.jsonData) (layout := RFC3339.layout) now db =
    ["-29665-02-18T20:26:40Z"%string] /\
  RFC3339.parse "-29665-02-18T20:26:40Z" = None /\
  fst (Redis.handleRedirects (codec := Redis.jsonData) now "old" db) =
    Redis.ErrorJSON 410 "URL expired" /\
  Redis.cleanUpExpiredLinks (codec := Redis.jsonData) (layout := RFC3339.layout) now db = db /\
  db !! "old"%string <> None /\
  exists w',
    Json.run (codec := JSONCodec.codec) (Json.cleanUpExpiredLinks now)
      (Json.mkWorld 0 {[ "old"%string := longPastRecord ]} false ∅) = Some (tt, w') /\
    Json.urlStore w' !! "old"%string = None.
Proof.
  intros body created db now.
  repeat lazymatch goal with |- _ /\ _ => split end;
    try (vm_compute; reflexivity); try (vm_compute; discriminate).
  eexists. split; vm_compute; reflexivity.
Qed.

(** ** Further properties of the code *)

(** *** Base-62 codes *)

Lemma isAlnum_base62 i : 0 <= i < 62 -> Json.isAlnum (byteAt base62 i) = true.
Proof.
  intros Hi.
  assert (Hall : forallb (fun k => Json.isAlnum (byteAt base62 (Z.of_nat k))) (seq 0 62) = true)
    by (vm_compute; reflexivity).
  rewrite forallb_forall in Hall.
  specialize (Hall (Z.to_nat i)). rewrite Z2Nat.id in Hall by lia.
  apply Hall, in_seq. lia.
Qed.

Lemma allAlnum_encodeLoop fuel : forall n r,
  Json.allAlnum r = true -> Json.allAlnum (encodeLoop fuel n r) = true.
Proof.
  induction fuel as [|fuel IH]; intros n r Hr; cbn [encodeLoop]; [assumption|].
  destruct (Z.ltb_spec 0 n) as [Hpos|]; [|assumption].
  apply IH. cbn [Json.allAlnum]. rewrite Hr, isAlnum_base62; [reflexivity|].
  rewrite Z.rem_mod_nonneg by lia. apply Z.mod_pos_bound. lia.
Qed.

Lemma encodeLoop_nonempty fuel : forall n c r,
  exists c' r', encodeLoop fuel n (String c r) = String c' r'.
Proof.
  induction fuel as [|fuel IH]; intros n c r; cbn [encodeLoop]; [eauto|].
  destruct (0 <? n); [apply IH|eauto].
Qed.

(** X1. Every code [encodeBase62] produces for a non-negative integer passes
    [isValidCode]: generated codes and custom codes share one alphabet. *)
Theorem encodeBase62_isValidCode (n : Z) :
  0 <= n -> Json.isValidCode (encodeBase62 n) = true.
Proof.
  intros Hn. unfold encodeBase62.
  destruct (Z.eqb_spec n 0) as [->|Hne]; [reflexivity|].
  cbn [encodeLoop]. destruct (Z.ltb_spec 0 n) as [_|]; [|lia].
  destruct (encodeLoop_nonempty (Z.to_nat (Z.log2 n)) (Z.quot n 62)
              (byteAt base62 (Z.rem n 62)) EmptyString) as (c' & r' & Hshape).
  assert (Hall : Json.allAlnum (encodeLoop (Z.to_nat (Z.log2 n)) (Z.quot n 62)
                   (String (byteAt base62 (Z.rem n 62)) EmptyString)) = true).
  { apply allAlnum_encodeLoop. cbn [Json.allAlnum].
    rewrite isAlnum_base62; [reflexivity|].
    rewrite Z.rem_mod_nonneg by lia. apply Z.mod_pos_bound. lia. }
  rewrite Hshape in *. exact Hall.
Qed.

(** The code of 3843 = 61 * 62 + 61. *)
Lemma encodeBase62_isValidCode_witness :
  Json.isValidCode (encodeBase62 3843) = true.
Proof. apply (encodeBase62_isValidCode 3843). lia. Defined.

(** X2. On the non-negative integers [encodeBase62] is injective: two
    identifiers get the same code only if they are equal. *)
Theorem encodeBase62_injective (n m : Z) :
  0 <= n -> 0 <= m -> (encodeBase62 n = encodeBase62 m <-> n = m).
Proof.
  intros Hn Hm. split; [now apply encodeBase62_inj|now intros ->].
Qed.

Lemma encodeBase62_injective_witness :
  encodeBase62 61 = encodeBase62 62 <-> 61 = 62.
Proof. apply (encodeBase62_injective 61 62); lia. Defined.

Lemma length_encodeLoop fuel : forall n r (k : nat),
  0 <= n < 62 ^ Z.of_nat k ->
  (String.length (encodeLoop fuel n r) <= k + String.length r)%nat.
Proof.
  induction fuel as [|fuel IH]; intros n r k Hn; cbn [encodeLoop]; [lia|].
  destruct (Z.ltb_spec 0 n) as [Hpos|]; [|lia].
  destruct k as [|k]; [cbn in Hn; lia|].
  assert (Hq : 0 <= Z.quot n 62 < 62 ^ Z.of_nat k).
  { rewrite Z.quot_div_nonneg by lia.
    rewrite Nat2Z.inj_succ, Z.pow_succ_r in Hn by lia.
    split; [apply Z.div_pos; lia|]. apply Z.div_lt_upper_bound; lia. }
  specialize (IH _ (String (byteAt base62 (Z.rem n 62)) r) k Hq).
  cbn [String.length] in IH. lia.
Qed.

(** X3. The code of a non-negative [int64] has between 1 and 11 characters. *)
Theorem encodeBase62_length (n : Z) :
  0 <= n <= maxInt64 ->
  (1 <= String.length (encodeBase62 n) <= 11)%nat.
Proof.
  intros Hn. split.
  - pose proof (encodeBase62_isValidCode n ltac:(lia)) as Hvalid.
    destruct (encodeBase62 n); [discriminate|cbn [String.length]; lia].
  - unfold encodeBase62. destruct (Z.eqb_spec n 0); [cbn; lia|].
    pose proof (length_encodeLoop (S (Z.to_nat (Z.log2 n))) n EmptyString 11) as Hlen.
    cbn [String.length] in Hlen. rewrite Nat.add_0_r in Hlen. apply Hlen.
    unfold maxInt64 in Hn. change (62 ^ Z.of_nat 11) with 52036560683837093888. lia.
Qed.

(** The largest [int64] takes all eleven characters. *)
Lemma encodeBase62_length_witness :
  (1 <= String.length (encodeBase62 maxInt64) <= 11)%nat.
Proof. apply (encodeBase62_length maxInt64). unfold maxInt64. lia. Defined.

(** *** The in-process handlers *)

Section HandlerFacts.
Import Json.
Context {codec : Codec}.

Lemma prefix_append pre s : String.prefix pre (pre +:+ s) = true.
Proof.
  induction pre as [|c pre IH]; [now destruct s|].
  rewrite append_String. cbn [String.prefix].
  destruct (Ascii.ascii_dec c c) as [_|Hne]; [exact IH|now destruct Hne].
Qed.

Lemma substring_append pre s :
  String.substring (String.length pre) (String.length (pre +:+ s) - String.length pre)
    (pre +:+ s) = s.
Proof.
  induction pre as [|c pre IH].
  - change (EmptyString +:+ s)%string with s. cbn [String.length].
    rewrite Nat.sub_0_r. apply substring_all.
  - rewrite append_String. cbn [String.length String.substring Nat.sub]. exact IH.
Qed.

(** [strings.TrimPrefix] takes a prefix off again. *)
Lemma TrimPrefix_append pre s : TrimPrefix (pre +:+ s) pre = s.
Proof. unfold TrimPrefix. rewrite prefix_append. apply substring_append. Qed.

Lemma inSync_saveStore w : inSync (saveStore w).
Proof. unfold inSync. now destruct (saveStore_files w) as [-> _]. Qed.

Lemma inSync_setMutex b w : inSync (setMutex b w) <-> inSync w.
Proof. reflexivity. Qed.

Lemma customCode_nonempty body :
  isValidCode (CustomCode body) = true -> (CustomCode body =? "")%string = false.
Proof. destruct (CustomCode body); [discriminate|reflexivity]. Qed.

Lemma eqb_string_false (a b : string) : a <> b -> (a =? b)%string = false.
Proof. intros Hne. now apply String.eqb_neq. Qed.

End HandlerFacts.

(** X4. A shorten request that fails a check -- a method other than POST, a
    body that does not decode, a URL without the [http(s)://] prefix (the
    empty URL included), a custom code with a character that is no letter or
    digit -- is answered 405 or 400 and leaves the whole state, the mutex
    included, as it found it. *)
Theorem shortenHandler_rejects_invalid {codec : Json.Codec}
  (w : Json.World) (now : Z) (r : Json.Request) :
  Json.mutex w = false ->
  (Json.Method r <> "POST"%string \/
   Json.Body r = None \/
   exists body, Json.Body r = Some body /\
     (Json.isValidURL (Json.URL body) = false \/
      (Json.CustomCode body <> EmptyString /\
       Json.isValidCode (Json.CustomCode body) = false))) ->
  exists msg status,
    Json.run (Json.shortenHandler now r) w = Some (Json.Error msg status, w) /\
    (status = 405 \/ status = 400).
Proof.
  intros Hfree Hbad. unfold Json.shortenHandler.
  destruct (String.eqb_spec (Json.Method r) "POST") as [Hpost|Hother]; cbn [negb].
  2:{ eexists _, _. split; [reflexivity|now left]. }
  destruct Hbad as [Hmethod|[Hbody|(body & Hbody & Hbad)]]; [done| |].
  { rewrite Hbody. eexists _, _. split; [reflexivity|now right]. }
  rewrite Hbody.
  destruct (Json.URL body =? "")%string.
  { eexists _, _. split; [reflexivity|now right]. }
  destruct (Json.isValidURL (Json.URL body)) eqn:Hurl; cbn [negb].
  2:{ eexists _, _. split; [reflexivity|now right]. }
  destruct Hbad as [Hurl'|[Hne Hcode]]; [discriminate|].
  rewrite run_lockDeferUnlock by assumption.
  rewrite (eqb_string_false _ _ Hne), Hcode. cbn [negb].
  run_forward. rewrite setMutex_release by assumption.
  eexists _, _. split; [reflexivity|now right].
Qed.

(** A custom code with a dash. *)
Lemma shortenHandler_rejects_invalid_witness :
  exists msg status,
    Json.run (codec := JSONCodec.codec)
      (Json.shortenHandler 1700000000
         (Scenario.shortenRequest "https://example.com" "my-code" 0))
      Scenario.abcWorld = Some (Json.Error msg status, Scenario.abcWorld) /\
    (status = 405 \/ status = 400).
Proof.
  apply (shortenHandler_rejects_invalid (codec := JSONCodec.codec)
           Scenario.abcWorld 1700000000); [reflexivity|].
  right. right. eexists. split; [reflexivity|].
  right. split; [discriminate|reflexivity].
Defined.

(** X5. A generated code is not checked against the store: when the code of
    the next counter value is already a key (taken earlier as a custom
    code), a shorten request without custom code succeeds and replaces the
    record under it, no code being added. *)
Theorem shortenHandler_overwrites_taken_code {codec : Json.Codec}
  (w : Json.World) (now : Z) (r : Json.Request) (body : Json.ShortenBody)
  (old : Json.URLData) :
  Json.mutex w = false ->
  Json.Method r = "POST"%string ->
  Json.Body r = Some body ->
  Json.isValidURL (Json.URL body) = true ->
  Json.CustomCode body = EmptyString ->
  Json.urlStore w !! encodeBase62 (wrap64 (Json.idCounter w + 1)) = Some old ->
  let code := encodeBase62 (wrap64 (Json.idCounter w + 1)) in
  exists w',
    Json.run (Json.shortenHandler now r) w =
      Some (Json.Shortened ("http://localhost:8080/" +:+ code) (Json.storedExpiry body), w') /\
    Json.urlStore w' !! code =
      Some (Json.mkURLData (Json.URL body) 0 now (Json.storedExpiry body)) /\
    dom (Json.urlStore w') = dom (Json.urlStore w).
Proof.
  intros Hfree Hmethod Hbody Hurl Hnone Htaken code.
  rewrite (run_shortenHandler_accepted w now r body) by (try assumption; now left).
  unfold Json.chosenCode. rewrite Hnone. cbn [String.eqb].
  eexists. split; [reflexivity|]. cbn [Json.urlStore Json.setMutex Json.saveStore Json.setStore].
  split; [apply lookup_insert_eq|].
  apply dom_insert_lookup_L. eauto.
Qed.

(** The custom code [1] was taken while the counter stood at 0. *)
Lemma shortenHandler_overwrites_taken_code_witness :
  exists w',
    Json.run (codec := JSONCodec.codec)
      (Json.shortenHandler 1700000500 (Scenario.shortenRequest "https://other.example" "" 0))
      takenWorld =
      Some (Json.Shortened "http://localhost:8080/1" 604800, w') /\
    Json.urlStore w' !! "1"%string =
      Some (Json.mkURLData "https://other.example" 0 1700000500 604800) /\
    dom (Json.urlStore w') = dom (Json.urlStore takenWorld).
Proof.
  apply (shortenHandler_overwrites_taken_code (codec := JSONCodec.codec) takenWorld
           1700000500 _ (Json.mkShortenBody "https://other.example" "" 0) Scenario.liveRecord);
    reflexivity.
Defined.

(** X6. A redirect on a code whose record is not refused as expired answers
    302 with the record's URL, raises the click count of that record by one,
    changes nothing else of it, and writes the snapshot of the new state. *)
Theorem handleRedirects_counts_click {codec : Json.Codec}
  (w : Json.World) (now : Z) (r : Json.Request) (code : string) (data : Json.URLData) :
  Json.Path r = ("/" +:+ code)%string ->
  Json.urlStore w !! code = Some data ->
  (Json.Expiry data = 0 \/ Json.IsExpired data now = false) ->
  inInt64 (Json.Clicks data + 1) ->
  exists w',
    Json.run (Json.handleRedirects now r) w =
      Some (Json.Redirect (Json.LongURL data) Json.StatusFound, w') /\
    Json.urlStore w' =
      <[code := Json.mkURLData (Json.LongURL data) (Json.Clicks data + 1)
                  (Json.CreatedAt data) (Json.Expiry data)]> (Json.urlStore w) /\
    Json.idCounter w' = Json.idCounter w /\
    inSync w'.
Proof.
  intros Hpath Hfound Hlive Hclicks.
  unfold Json.handleRedirects. rewrite Hpath, TrimPrefix_slash.
  run_forward. rewrite Hfound.
  assert (Hguard : negb (Json.Expiry data =? 0) && Json.IsExpired data now = false).
  { destruct Hlive as [Hz|Hz]; rewrite Hz; [reflexivity|apply andb_false_r]. }
  rewrite Hguard. run_forward. rewrite Hfound. run_forward.
  rewrite (wrap64_id _ Hclicks).
  eexists. split; [reflexivity|]. split; [reflexivity|]. split; [reflexivity|].
  apply inSync_saveStore.
Qed.

Lemma handleRedirects_counts_click_witness :
  exists w',
    Json.run (codec := JSONCodec.codec)
      (Json.handleRedirects Scenario.liveNow (Scenario.getRequest "/abc")) Scenario.liveWorld =
      Some (Json.Redirect Scenario.exampleURL Json.StatusFound, w') /\
    Json.urlStore w' = <["abc"%string := Scenario.clickedRecord]> (Json.urlStore Scenario.liveWorld) /\
    Json.idCounter w' = 0 /\
    inSync (codec := JSONCodec.codec) w'.
Proof.
  apply (handleRedirects_counts_click (codec := JSONCodec.codec) Scenario.liveWorld
           Scenario.liveNow (Scenario.getRequest "/abc") "abc" Scenario.liveRecord);
    [reflexivity | reflexivity | right; reflexivity |
     unfold inInt64, minInt64, maxInt64; cbn; lia].
Defined.

(** X7. Whatever the request and the state, a redirect returns, and it never
    adds or removes a code, never changes the counter or the mutex, and never
    changes the record of a code other than the one requested. *)
Theorem handleRedirects_frame {codec : Json.Codec}
  (w : Json.World) (now : Z) (r : Json.Request) :
  exists resp w',
    Json.run (Json.handleRedirects now r) w = Some (resp, w') /\
    Json.idCounter w' = Json.idCounter w /\
    Json.mutex w' = Json.mutex w /\
    dom (Json.urlStore w') = dom (Json.urlStore w) /\
    (forall code, code <> Json.TrimPrefix (Json.Path r) "/" ->
       Json.urlStore w' !! code = Json.urlStore w !! code).
Proof.
  unfold Json.handleRedirects. set (code := Json.TrimPrefix (Json.Path r) "/").
  run_forward.
  destruct (Json.urlStore w !! code) as [data|] eqn:Hfound.
  - destruct (negb (Json.Expiry data =? 0) && Json.IsExpired data now).
    + run_forward. eexists _, w. repeat split.
    + run_forward. rewrite Hfound. run_forward.
      eexists _, _. split; [reflexivity|].
      cbn [Json.idCounter Json.mutex Json.urlStore Json.saveStore Json.setStore].
      repeat split.
      * apply dom_insert_lookup_L. eauto.
      * intros code' Hne. now rewrite lookup_insert_ne.
  - run_forward. rewrite Hfound. run_forward. eexists _, w. repeat split.
Qed.

Section SweepOutcome.
Import Json.
Context {codec : Codec}.

(** What the sweep leaves, with the snapshot it writes. *)
Lemma run_cleanUpExpiredLinks w now :
  mutex w = false ->
  exists w',
    run (cleanUpExpiredLinks now) w = Some (tt, w') /\
    (forall code data, urlStore w !! code = Some data ->
       IsExpired data now = true -> urlStore w' !! code = None) /\
    (forall code data, urlStore w !! code = Some data ->
       IsExpired data now = false -> urlStore w' !! code = Some data) /\
    (forall code, urlStore w !! code = None -> urlStore w' !! code = None) /\
    idCounter w' = idCounter w /\
    mutex w' = false /\
    inSync w'.
Proof.
  intros Hfree. unfold cleanUpExpiredLinks.
  rewrite run_lockDeferUnlock by assumption.
  rewrite run_mbind, run_trigger. cbn [handle].
  rewrite run_mbind, run_sweepLoop, run_trigger. cbn [handle].
  eexists. split; [reflexivity|].
  set (entries := map_to_list (urlStore (setMutex true w))).
  destruct (sweep_fold_frame now entries (setMutex true w))
    as (Hc & Hm & Hf & Hnone & Hdel & Hkeep).
  split; [|split; [|split; [|split; [|split]]]].
  - intros code data Hfound Hexp. apply (Hdel code data); [|exact Hexp].
    subst entries. by apply elem_of_map_to_list.
  - intros code data Hfound Hfresh. cbn [urlStore setMutex saveStore].
    rewrite Hkeep; [exact Hfound|].
    intros data' Hin. subst entries. apply elem_of_map_to_list in Hin.
    cbn in Hin. congruence.
  - exact Hnone.
  - exact Hc.
  - reflexivity.
  - apply inSync_setMutex, inSync_saveStore.
Qed.

End SweepOutcome.

(** X8. The redirect and the sweep disagree on a record with TTL 0: past its
    creation instant the redirect still serves it (the guard [Expiry != 0]
    exempts it from expiry), while the sweep, which has no such guard,
    deletes it. *)
Theorem zero_ttl_served_but_swept {codec : Json.Codec}
  (w : Json.World) (now : Z) (r : Json.Request) (code : string) (data : Json.URLData) :
  Json.mutex w = false ->
  Json.Path r = ("/" +:+ code)%string ->
  Json.urlStore w !! code = Some data ->
  Json.Expiry data = 0 ->
  inInt64 (Json.CreatedAt data) ->
  Json.CreatedAt data < now ->
  (exists w1, Json.run (Json.handleRedirects now r) w =
                Some (Json.Redirect (Json.LongURL data) Json.StatusFound, w1)) /\
  (exists w2, Json.run (Json.cleanUpExpiredLinks now) w = Some (tt, w2) /\
              Json.urlStore w2 !! code = None).
Proof.
  intros Hfree Hpath Hfound Httl Hfit Hpast. split.
  - unfold Json.handleRedirects. rewrite Hpath, TrimPrefix_slash.
    run_forward. rewrite Hfound, Httl. cbn [Z.eqb negb andb].
    run_forward. rewrite Hfound. run_forward. eauto.
  - destruct (run_cleanUpExpiredLinks w now Hfree) as (w2 & Hrun & Hdel & _).
    exists w2. split; [exact Hrun|]. apply (Hdel code data Hfound).
    rewrite IsExpired_spec by (rewrite Httl, Z.add_0_r; exact Hfit).
    apply Z.ltb_lt. lia.
Qed.

(** A record with TTL 0, as a snapshot file may hold one. *)
Lemma zero_ttl_served_but_swept_witness :
  let data := Json.mkURLData "https://example.com" 0 1700000000 0 in
  let w := Json.mkWorld 0 {[ "abc"%string := data ]} false ∅ in
  (exists w1, Json.run (codec := JSONCodec.codec)
                (Json.handleRedirects 1800000000 (Scenario.getRequest "/abc")) w =
                Some (Json.Redirect "https://example.com" Json.StatusFound, w1)) /\
  (exists w2, Json.run (codec := JSONCodec.codec) (Json.cleanUpExpiredLinks 1800000000) w =
                Some (tt, w2) /\
              Json.urlStore w2 !! "abc"%string = None).
Proof.
  intros data w.
  apply (zero_ttl_served_but_swept (codec := JSONCodec.codec) w 1800000000
           (Scenario.getRequest "/abc") "abc" data);
    try reflexivity; unfold inInt64, minInt64, maxInt64; cbn; lia.
Defined.

(** X9. A DELETE request on [/delete/code], served with the mutex free,
    answers 204 if the code is a key and 404 if not; either way the code is
    no key afterwards, every other record and the counter are untouched, the
    mutex is free again, and a redirect on the code answers 404. *)
Theorem deleteHandle_removes {codec : Json.Codec}
  (w : Json.World) (r : Json.Request) (code : string) :
  Json.mutex w = false ->
  Json.Method r = "DELETE"%string ->
  Json.Path r = ("/delete/" +:+ code)%string ->
  exists w',
    Json.run (Json.deleteHandle r) w =
      Some (match Json.urlStore w !! code with
            | Some _ => Json.WriteHeader Json.StatusNoContent
            | None => Json.Error "Short URL not found" Json.StatusNotFound
            end, w') /\
    Json.urlStore w' = delete code (Json.urlStore w) /\
    Json.idCounter w' = Json.idCounter w /\
    Json.mutex w' = false /\
    (forall now r', Json.Path r' = ("/" +:+ code)%string ->
       Json.run (Json.handleRedirects now r') w' =
         Some (Json.Error "URL not found!" Json.StatusNotFound, w')).
Proof.
  intros Hfree Hmethod Hpath. unfold Json.deleteHandle.
  rewrite Hmethod, Hpath, TrimPrefix_append. cbn [String.eqb Ascii.eqb Bool.eqb negb].
  rewrite run_lockDeferUnlock by assumption. run_forward.
  assert (Hredirect : forall w', Json.urlStore w' !! code = None ->
            forall now r', Json.Path r' = ("/" +:+ code)%string ->
            Json.run (Json.handleRedirects now r') w' =
              Some (Json.Error "URL not found!" Json.StatusNotFound, w')).
  { intros w' Hgone now r' Hpath'. unfold Json.handleRedirects.
    rewrite Hpath', TrimPrefix_slash. run_forward. rewrite Hgone.
    run_forward. rewrite Hgone. now run_forward. }
  destruct (Json.urlStore w !! code) as [data|] eqn:Hfound; run_forward.
  - eexists. split; [reflexivity|].
    cbn [Json.urlStore Json.idCounter Json.mutex Json.setMutex Json.saveStore].
    repeat split. apply Hredirect. cbn. apply lookup_delete_eq.
  - rewrite setMutex_release by assumption. exists w.
    split; [reflexivity|]. rewrite delete_id by assumption.
    repeat split; [assumption|]. now apply Hredirect.
Qed.

Lemma deleteHandle_removes_witness :
  let r := Json.mkRequest "DELETE" "/delete/abc" None in
  exists w',
    Json.run (codec := JSONCodec.codec) (Json.deleteHandle r) Scenario.liveWorld =
      Some (Json.WriteHeader Json.StatusNoContent, w') /\
    Json.urlStore w' = delete "abc"%string (Json.urlStore Scenario.liveWorld) /\
    Json.idCounter w' = 0 /\
    Json.mutex w' = false /\
    (forall now r', Json.Path r' = "/abc"%string ->
       Json.run (codec := JSONCodec.codec) (Json.handleRedirects now r') w' =
         Some (Json.Error "URL not found!" Json.StatusNotFound, w')).
Proof.
  intros r.
  apply (deleteHandle_removes (codec := JSONCodec.codec) Scenario.liveWorld r "abc");
    reflexivity.
Defined.

(** X10. Shorten, then redirect: once a shorten request is accepted, a
    redirect on the code it returned, at any instant the expiry comparison
    does not hold for, answers 302 with the URL that was shortened, and the
    record then counts one click. *)
Theorem shorten_then_redirect {codec : Json.Codec}
  (w : Json.World) (now later : Z) (r r' : Json.Request) (body : Json.ShortenBody) :
  Json.mutex w = false ->
  Json.Method r = "POST"%string ->
  Json.Body r = Some body ->
  Json.isValidURL (Json.URL body) = true ->
  (Json.CustomCode body = EmptyString \/
   (Json.isValidCode (Json.CustomCode body) = true /\
    Json.urlStore w !! Json.CustomCode body = None)) ->
  let code := Json.chosenCode w body in
  let record := Json.mkURLData (Json.URL body) 0 now (Json.storedExpiry body) in
  Json.Path r' = ("/" +:+ code)%string ->
  Json.IsExpired record later = false ->
  exists w' w'',
    Json.run (Json.shortenHandler now r) w =
      Some (Json.Shortened ("http://localhost:8080/" +:+ code) (Json.storedExpiry body), w') /\
    Json.run (Json.handleRedirects later r') w' =
      Some (Json.Redirect (Json.URL body) Json.StatusFound, w'') /\
    Json.urlStore w'' !! code =
      Some (Json.mkURLData (Json.URL body) 1 now (Json.storedExpiry body)).
Proof.
  intros Hfree Hmethod Hbody Hurl Hcustom code record Hpath Hlive.
  rewrite (run_shortenHandler_accepted w now r body) by assumption.
  fold code. fold record.
  eexists _, _. split; [reflexivity|].
  unfold Json.handleRedirects. rewrite Hpath, TrimPrefix_slash.
  run_forward. cbn [Json.saveStore Json.urlStore Json.setMutex Json.setStore Json.setCounter].
  rewrite lookup_insert_eq, Hlive, andb_false_r.
  run_forward. cbn [Json.saveStore Json.urlStore Json.setMutex Json.setStore Json.setCounter]. rewrite lookup_insert_eq.
  run_forward. split; [reflexivity|].
  cbn [Json.saveStore Json.urlStore Json.setMutex Json.setStore Json.setCounter]. apply lookup_insert_eq.
Qed.

Lemma shorten_then_redirect_witness :
  exists w' w'',
    Json.run (codec := JSONCodec.codec)
      (Json.shortenHandler 1700000000 (Scenario.shortenRequest "https://example.com" "" 0))
      Scenario.freshWorld =
      Some (Json.Shortened "http://localhost:8080/1" 604800, w') /\
    Json.run (codec := JSONCodec.codec)
      (Json.handleRedirects 1700000100 (Scenario.getRequest "/1")) w' =
      Some (Json.Redirect "https://example.com" Json.StatusFound, w'') /\
    Json.urlStore w'' !! "1"%string =
      Some (Json.mkURLData "https://example.com" 1 1700000000 604800).
Proof.
  apply (shorten_then_redirect (codec := JSONCodec.codec) Scenario.freshWorld
           1700000000 1700000100 _ (Scenario.getRequest "/1")
           (Json.mkShortenBody "https://example.com" "" 0));
    try reflexivity. left. reflexivity.
Defined.

(** X11. [/info] is read-only: served with the mutex free it returns the
    state exactly as it found it, and it answers 404 for a code that is no
    key and otherwise the record as stored -- URL, clicks, creation and
    expiry instants -- with the flag of the expiry comparison at [now]. *)
Theorem infoHandler_reads_only {codec : Json.Codec}
  (w : Json.World) (now : Z) (r : Json.Request) (code : string) :
  Json.mutex w = false ->
  Json.Path r = ("/info/" +:+ code)%string ->
  Json.run (Json.infoHandler now r) w =
    Some (match Json.urlStore w !! code with
          | None => Json.Error "Short URL not found" Json.StatusNotFound
          | Some data =>
              Json.InfoJSON
                (Json.mkLinkInfo code (Json.LongURL data) (Json.Clicks data)
                   (Json.CreatedAt data) (wrap64 (Json.CreatedAt data + Json.Expiry data))
                   (Json.IsExpired data now))
          end, w).
Proof.
  intros Hfree Hpath. unfold Json.infoHandler.
  rewrite Hpath, TrimPrefix_append.
  rewrite run_lockDeferUnlock by assumption. run_forward.
  destruct (Json.urlStore w !! code); run_forward;
    now rewrite setMutex_release.
Qed.

Lemma infoHandler_reads_only_witness :
  Json.run (codec := JSONCodec.codec)
    (Json.infoHandler Scenario.liveNow (Scenario.getRequest "/info/abc")) Scenario.liveWorld =
    Some (Json.InfoJSON
            (Json.mkLinkInfo "abc" Scenario.exampleURL 0 1700000000 1700604800 false),
          Scenario.liveWorld).
Proof.
  apply (infoHandler_reads_only (codec := JSONCodec.codec) Scenario.liveWorld
           Scenario.liveNow (Scenario.getRequest "/info/abc") "abc"); reflexivity.
Defined.

(** X12. [/list] is read-only and complete: a GET served with the mutex free
    returns the state as it found it and one entry per record of the store,
    expired ones included, each carrying its record and the expiry flag. *)
Theorem listHandle_lists_all {codec : Json.Codec}
  (w : Json.World) (now : Z) (r : Json.Request) :
  Json.mutex w = false ->
  Json.Method r = "GET"%string ->
  exists links,
    Json.run (Json.listHandle now r) w = Some (Json.ListJSON links, w) /\
    length links = size (Json.urlStore w) /\
    (forall info, info ∈ links <->
       exists code data, Json.urlStore w !! code = Some data /\
                         info = Json.linkInfo now code data).
Proof.
  intros Hfree Hmethod. unfold Json.listHandle.
  rewrite Hmethod. cbn [String.eqb Ascii.eqb Bool.eqb negb].
  rewrite run_lockDeferUnlock by assumption. run_forward.
  rewrite setMutex_release by assumption.
  eexists. split; [reflexivity|]. split.
  - rewrite length_map. apply length_map_to_list.
  - intros info. rewrite list_elem_of_In, in_map_iff. split.
    + intros ([code data] & <- & Hin). apply list_elem_of_In, elem_of_map_to_list in Hin.
      cbn [fst snd]. eauto.
    + intros (code & data & Hfound & ->). exists (code, data).
      split; [reflexivity|]. apply list_elem_of_In. now apply elem_of_map_to_list.
Qed.

Lemma listHandle_lists_all_witness :
  exists links,
    Json.run (codec := JSONCodec.codec)
      (Json.listHandle Scenario.liveNow (Scenario.getRequest "/list")) Scenario.liveWorld =
      Some (Json.ListJSON links, Scenario.liveWorld) /\
    length links = size (Json.urlStore Scenario.liveWorld) /\
    (forall info, info ∈ links <->
       exists code data, Json.urlStore Scenario.liveWorld !! code = Some data /\
                         info = Json.linkInfo Scenario.liveNow code data).
Proof.
  apply (listHandle_lists_all (codec := JSONCodec.codec) Scenario.liveWorld
           Scenario.liveNow (Scenario.getRequest "/list")); reflexivity.
Defined.

Section PersistenceFacts.
Import Json.
Context {codec : Codec}.

(** A program that saves what it writes keeps the snapshot equal to the
    memory. *)
Lemma persists_inSync {A : Type} (dirty : bool) (p : prog A) :
  persists dirty p -> forall w a w',
  (dirty = false -> inSync w) ->
  run p w = Some (a, w') -> inSync w'.
Proof.
  intros Hp. induction Hp as [a|X dirty e k Hk IH]; intros w a' w' Hsync Hrun.
  - cbn in Hrun. injection Hrun as _ <-. now apply Hsync.
  - cbn [run] in Hrun. destruct (handle e w) as [[x w1]|] eqn:Hstep; [|discriminate].
    apply (IH x w1 a' w'); [|exact Hrun].
    intros Hclean. destruct e; cbn in Hstep, Hclean;
      try discriminate; try (injection Hstep as <- <-);
      try (now apply Hsync); try apply inSync_saveStore.
    destruct (mutex w); [discriminate|]. injection Hstep as <- <-. now apply Hsync.
Qed.

Lemma persists_sweepLoop {A : Type} now entries
  (save : unit -> prog unit) (unlock : unit -> prog A) :
  (forall dirty, persists dirty (bind (save tt) unlock)) ->
  forall dirty, persists dirty (bind (bind (sweepLoop now entries) save) unlock).
Proof.
  intros Hk. induction entries as [|[code data] rest IH]; intros dirty.
  - apply Hk.
  - cbn [sweepLoop]. unfold mbind, prog_bind, mret, prog_ret.
    destruct (IsExpired data now); cbn [bind trigger].
    + constructor. intros []. apply IH.
    + apply IH.
Qed.

End PersistenceFacts.

(** Walks a handler's tree, splitting on its tests. *)
Ltac persist_walk :=
  unfold mbind, Json.prog_bind, mret, Json.prog_ret;
  repeat first
    [ apply persists_Ret
    | apply persists_Vis; intros ?
    | progress cbn [Json.bind Json.trigger dirtyAfter]
    | match goal with
      | |- persists _ ?p =>
          match p with
          | context [if ?c then _ else _] => destruct c
          | context [match ?o with Some _ => _ | None => _ end] => destruct o
          | context [match ?o with inl _ => _ | inr _ => _ end] => destruct o
          end
      end ].

Section PersistentHandlers.
Import Json.
Context {codec : Codec}.

Lemma persists_shortenHandler now r : persists false (shortenHandler now r).
Proof.
  unfold shortenHandler, lockDeferUnlock, nextCode. persist_walk.
Qed.

Lemma persists_handleRedirects now r : persists false (handleRedirects now r).
Proof. unfold handleRedirects. persist_walk. Qed.

Lemma persists_deleteHandle r : persists false (deleteHandle r).
Proof. unfold deleteHandle, lockDeferUnlock. persist_walk. Qed.

Lemma persists_infoHandler now r : persists false (infoHandler now r).
Proof. unfold infoHandler, lockDeferUnlock. persist_walk. Qed.

Lemma persists_listHandle now r : persists false (listHandle now r).
Proof. unfold listHandle, lockDeferUnlock. persist_walk. Qed.

Lemma persists_cleanUpExpiredLinks now : persists false (cleanUpExpiredLinks now).
Proof.
  unfold cleanUpExpiredLinks, lockDeferUnlock.
  unfold mbind, prog_bind, mret, prog_ret. cbn [bind trigger].
  constructor. intros []. constructor. intros entries.
  cbn [dirtyAfter].
  apply persists_sweepLoop. intros dirty. persist_walk.
Qed.

End PersistentHandlers.

(** X13. The snapshot follows the memory: if [store.json] holds the
    marshalled counter and map when a handler or the sweep starts, it does so
    again when it returns, on every path -- each write to the counter or the
    map is followed by [saveStore] before the function returns. *)
Theorem handlers_keep_snapshot_in_sync {codec : Json.Codec}
  (w : Json.World) (now : Z) (r : Json.Request) :
  inSync w ->
  (forall resp w', Json.run (Json.shortenHandler now r) w = Some (resp, w') -> inSync w') /\
  (forall resp w', Json.run (Json.handleRedirects now r) w = Some (resp, w') -> inSync w') /\
  (forall resp w', Json.run (Json.deleteHandle r) w = Some (resp, w') -> inSync w') /\
  (forall resp w', Json.run (Json.infoHandler now r) w = Some (resp, w') -> inSync w') /\
  (forall resp w', Json.run (Json.listHandle now r) w = Some (resp, w') -> inSync w') /\
  (forall w', Json.run (Json.cleanUpExpiredLinks now) w = Some (tt, w') -> inSync w').
Proof.
  intros Hsync.
  split; [|split; [|split; [|split; [|split]]]].
  - intros resp w' Hrun.
    exact (persists_inSync false _ (persists_shortenHandler now r) w resp w'
             (fun _ => Hsync) Hrun).
  - intros resp w' Hrun.
    exact (persists_inSync false _ (persists_handleRedirects now r) w resp w'
             (fun _ => Hsync) Hrun).
  - intros resp w' Hrun.
    exact (persists_inSync false _ (persists_deleteHandle r) w resp w'
             (fun _ => Hsync) Hrun).
  - intros resp w' Hrun.
    exact (persists_inSync false _ (persists_infoHandler now r) w resp w'
             (fun _ => Hsync) Hrun).
  - intros resp w' Hrun.
    exact (persists_inSync false _ (persists_listHandle now r) w resp w'
             (fun _ => Hsync) Hrun).
  - intros w' Hrun.
    exact (persists_inSync false _ (persists_cleanUpExpiredLinks now) w tt w'
             (fun _ => Hsync) Hrun).
Qed.

(** The state a shorten on a fresh store has left. *)
Lemma handlers_keep_snapshot_in_sync_witness :
  let w := Json.saveStore (codec := JSONCodec.codec) Scenario.liveWorld in
  let r := Scenario.getRequest "/abc" in
  let now := Scenario.liveNow in
  (forall resp w', Json.run (codec := JSONCodec.codec) (Json.shortenHandler now r) w =
                     Some (resp, w') -> inSync (codec := JSONCodec.codec) w') /\
  (forall resp w', Json.run (codec := JSONCodec.codec) (Json.handleRedirects now r) w =
                     Some (resp, w') -> inSync (codec := JSONCodec.codec) w') /\
  (forall resp w', Json.run (codec := JSONCodec.codec) (Json.deleteHandle r) w =
                     Some (resp, w') -> inSync (codec := JSONCodec.codec) w') /\
  (forall resp w', Json.run (codec := JSONCodec.codec) (Json.infoHandler now r) w =
                     Some (resp, w') -> inSync (codec := JSONCodec.codec) w') /\
  (forall resp w', Json.run (codec := JSONCodec.codec) (Json.listHandle now r) w =
                     Some (resp, w') -> inSync (codec := JSONCodec.codec) w') /\
  (forall w', Json.run (codec := JSONCodec.codec) (Json.cleanUpExpiredLinks now) w =
                Some (tt, w') -> inSync (codec := JSONCodec.codec) w').
Proof.
  intros w r now.
  apply (handlers_keep_snapshot_in_sync (codec := JSONCodec.codec) w now r).
  reflexivity.
Defined.

Section MutexRelease.
Import Json.
Context {codec : Codec}.

Lemma lockFree_returns {A : Type} (p : prog A) :
  lockFree p -> forall w, exists a w', run p w = Some (a, w').
Proof.
  intros Hp. induction Hp as [a|X e k He Hk IH]; intros w; cbn [run]; [eauto|].
  destruct e; try discriminate; cbn [handle]; apply IH.
Qed.

(** A critical section entered with the mutex free runs to its end and
    leaves the mutex free. *)
Lemma lockDeferUnlock_returns {A : Type} (body : prog A) w :
  lockFree body -> mutex w = false ->
  exists a w', run (lockDeferUnlock body) w = Some (a, w') /\ mutex w' = false.
Proof.
  intros Hbody Hfree. rewrite run_lockDeferUnlock by assumption.
  destruct (lockFree_returns body Hbody (setMutex true w)) as (a & w' & Hrun).
  rewrite Hrun. eauto.
Qed.

End MutexRelease.

(** X14. No handler keeps the mutex: served with the mutex free, each of the
    shorten, delete, info and list handlers and the sweep runs to its end --
    on its error paths too, the unlock being deferred -- and leaves the mutex
    free. *)
Theorem locked_handlers_release_mutex {codec : Json.Codec}
  (w : Json.World) (now : Z) (r : Json.Request) :
  Json.mutex w = false ->
  (exists resp w', Json.run (Json.shortenHandler now r) w = Some (resp, w') /\
                   Json.mutex w' = false) /\
  (exists resp w', Json.run (Json.deleteHandle r) w = Some (resp, w') /\
                   Json.mutex w' = false) /\
  (exists resp w', Json.run (Json.infoHandler now r) w = Some (resp, w') /\
                   Json.mutex w' = false) /\
  (exists resp w', Json.run (Json.listHandle now r) w = Some (resp, w') /\
                   Json.mutex w' = false) /\
  (exists w', Json.run (Json.cleanUpExpiredLinks now) w = Some (tt, w') /\
              Json.mutex w' = false).
Proof.
  intros Hfree. split; [|split; [|split; [|split]]].
  - unfold Json.shortenHandler.
    destruct (negb _); [eexists _, w; split; [reflexivity|assumption]|].
    destruct (Json.Body r) as [body|]; [|eexists _, w; split; [reflexivity|assumption]].
    destruct (Json.URL body =? "")%string;
      [eexists _, w; split; [reflexivity|assumption]|].
    destruct (negb _); [eexists _, w; split; [reflexivity|assumption]|].
    apply lockDeferUnlock_returns; [|assumption]. lock_free.
  - unfold Json.deleteHandle.
    destruct (negb _); [eexists _, w; split; [reflexivity|assumption]|].
    apply lockDeferUnlock_returns; [|assumption]. lock_free.
  - unfold Json.infoHandler.
    apply lockDeferUnlock_returns; [|assumption]. lock_free.
  - unfold Json.listHandle.
    destruct (negb _); [eexists _, w; split; [reflexivity|assumption]|].
    apply lockDeferUnlock_returns; [|assumption]. lock_free.
  - destruct (run_cleanUpExpiredLinks w now Hfree) as (w' & Hrun & _ & _ & _ & _ & Hm & _).
    eauto.
Qed.

Lemma locked_handlers_release_mutex_witness :
  let w := Scenario.liveWorld in
  let r := Json.mkRequest "DELETE" "/delete/abc" None in
  let now := Scenario.liveNow in
  (exists resp w', Json.run (codec := JSONCodec.codec) (Json.shortenHandler now r) w =
                     Some (resp, w') /\ Json.mutex w' = false) /\
  (exists resp w', Json.run (codec := JSONCodec.codec) (Json.deleteHandle r) w =
                     Some (resp, w') /\ Json.mutex w' = false) /\
  (exists resp w', Json.run (codec := JSONCodec.codec) (Json.infoHandler now r) w =
                     Some (resp, w') /\ Json.mutex w' = false) /\
  (exists resp w', Json.run (codec := JSONCodec.codec) (Json.listHandle now r) w =
                     Some (resp, w') /\ Json.mutex w' = false) /\
  (exists w', Json.run (codec := JSONCodec.codec) (Json.cleanUpExpiredLinks now) w =
                Some (tt, w') /\ Json.mutex w' = false).
Proof.
  intros w r now.
  apply (locked_handlers_release_mutex (codec := JSONCodec.codec) w now r). reflexivity.
Defined.

(** X15. The handlers that take the mutex keep to it: served with the mutex
    free, the shorten, delete, info and list handlers and the sweep make every
    access to the map, the counter and the snapshot while they hold it. *)
Theorem locked_handlers_access_under_mutex {codec : Json.Codec}
  (w : Json.World) (now : Z) (r : Json.Request) :
  Json.mutex w = false ->
  Json.unguarded (Json.shortenHandler now r) w = 0%nat /\
  Json.unguarded (Json.deleteHandle r) w = 0%nat /\
  Json.unguarded (Json.infoHandler now r) w = 0%nat /\
  Json.unguarded (Json.listHandle now r) w = 0%nat /\
  Json.unguarded (Json.cleanUpExpiredLinks now) w = 0%nat.
Proof.
  intros Hfree.
  split; [now apply shortenHandler_guarded|].
  split; [now apply deleteHandle_guarded|].
  split; [now apply infoHandler_guarded|].
  split; [now apply listHandle_guarded|].
  now apply cleanUpExpiredLinks_guarded.
Qed.

Lemma locked_handlers_access_under_mutex_witness :
  let w := Scenario.liveWorld in
  let r := Scenario.shortenRequest "https://example.com" "abc" 0 in
  let now := Scenario.liveNow in
  Json.unguarded (codec := JSONCodec.codec) (Json.shortenHandler now r) w = 0%nat /\
  Json.unguarded (codec := JSONCodec.codec) (Json.deleteHandle r) w = 0%nat /\
  Json.unguarded (codec := JSONCodec.codec) (Json.infoHandler now r) w = 0%nat /\
  Json.unguarded (codec := JSONCodec.codec) (Json.listHandle now r) w = 0%nat /\
  Json.unguarded (codec := JSONCodec.codec) (Json.cleanUpExpiredLinks now) w = 0%nat.
Proof.
  intros w r now.
  apply (locked_handlers_access_under_mutex (codec := JSONCodec.codec) w now r). reflexivity.
Defined.

(** X16. [saveStore] replaces the snapshot and nothing else: afterwards
    [store.json] holds the marshalled counter and map, [store.json.tmp] does
    not exist, every other file is what it was, and the counter, the map and
    the mutex are untouched. *)
Theorem saveStore_replaces_snapshot_only {codec : Json.Codec} (w : Json.World) :
  Json.files (Json.saveStore w) !! Json.filename =
    Some (Json.marshalIndent (Json.mkStore (Json.idCounter w) (Json.urlStore w))) /\
  Json.files (Json.saveStore w) !! (Json.filename +:+ ".tmp")%string = None /\
  (forall name, name <> Json.filename -> name <> (Json.filename +:+ ".tmp")%string ->
     Json.files (Json.saveStore w) !! name = Json.files w !! name) /\
  Json.idCounter (Json.saveStore w) = Json.idCounter w /\
  Json.urlStore (Json.saveStore w) = Json.urlStore w /\
  Json.mutex (Json.saveStore w) = Json.mutex w.
Proof.
  destruct (saveStore_files w) as [Hfile Htmp].
  split; [exact Hfile|]. split; [exact Htmp|]. split; [|repeat split].
  intros name Hname Htmpname. unfold Json.saveStore, Json.rename. cbn [Json.files].
  rewrite lookup_insert_eq.
  rewrite lookup_insert_ne by congruence.
  rewrite lookup_delete_ne by congruence.
  now rewrite lookup_insert_ne by congruence.
Qed.



(** *** The rate limiter *)

Section LimiterMore.
Import Limiter.

Lemma countsBounded_middleware now ip rl :
  countsBounded rl -> countsBounded (fst (rateLimitMiddleware now ip rl)).
Proof.
  intros Hb ip' limiter'. unfold rateLimitMiddleware.
  destruct (rl !! ip) as [limiter|] eqn:Hip; cbn [fst].
  - destruct (rateLimitWindow <? _); cbn [fst].
    + destruct (decide (ip = ip')) as [->|Hne].
      * rewrite lookup_insert_eq. intros [= <-]. cbn. unfold maxRequests. lia.
      * rewrite lookup_insert_ne by assumption. apply Hb.
    + destruct (Z.leb_spec maxRequests (requests limiter)) as [|Hroom]; cbn [fst]; [apply Hb|].
      destruct (decide (ip = ip')) as [->|Hne].
      * rewrite lookup_insert_eq. intros [= <-]. cbn [requests].
        specialize (Hb _ _ Hip). unfold maxRequests in *.
        rewrite wrap64_id by (unfold inInt64, minInt64, maxInt64; lia). lia.
      * rewrite lookup_insert_ne by assumption. apply Hb.
  - destruct (decide (ip = ip')) as [->|Hne].
    + rewrite lookup_insert_eq. intros [= <-]. cbn. unfold maxRequests. lia.
    + rewrite lookup_insert_ne by assumption. apply Hb.
Qed.

Lemma countsBounded_clean now rl :
  countsBounded rl -> countsBounded (cleanRateLimiters now rl).
Proof.
  intros Hb ip limiter Hfound. unfold cleanRateLimiters in Hfound.
  apply map_lookup_filter_Some in Hfound as [Hfound _]. now apply (Hb ip).
Qed.

(** What the middleware does for a client depends on that client's entry
    alone. *)
Lemma middleware_local now ip rl1 rl2 :
  rl1 !! ip = rl2 !! ip ->
  snd (rateLimitMiddleware now ip rl1) = snd (rateLimitMiddleware now ip rl2) /\
  fst (rateLimitMiddleware now ip rl1) !! ip = fst (rateLimitMiddleware now ip rl2) !! ip.
Proof.
  intros Heq. unfold rateLimitMiddleware. rewrite Heq.
  destruct (rl2 !! ip) as [limiter|] eqn:Hip2; cbn [fst snd].
  - destruct (rateLimitWindow <? _); cbn [fst snd];
      [now rewrite !lookup_insert_eq|].
    destruct (maxRequests <=? _); cbn [fst snd];
      [split; [reflexivity|congruence]|now rewrite !lookup_insert_eq].
  - now rewrite !lookup_insert_eq.
Qed.

Lemma outcomesOf_local ip attempts : forall rl1 rl2,
  rl1 !! ip = rl2 !! ip ->
  outcomesOf ip attempts rl1 = outcomesOf ip attempts rl2.
Proof.
  induction attempts as [|[now ip'] rest IH]; intros rl1 rl2 Heq; [reflexivity|].
  cbn [outcomesOf].
  destruct (rateLimitMiddleware now ip' rl1) as [rl1' o1] eqn:H1.
  destruct (rateLimitMiddleware now ip' rl2) as [rl2' o2] eqn:H2.
  assert (Hnext : rl1' !! ip = rl2' !! ip /\ (ip' = ip -> o1 = o2)).
  { destruct (decide (ip' = ip)) as [->|Hne].
    - destruct (middleware_local now ip rl1 rl2 Heq) as [Ho Hl].
      rewrite H1, H2 in Ho, Hl. cbn in Ho, Hl. now split.
    - pose proof (middleware_other now ip ip' rl1 Hne) as Hl1.
      pose proof (middleware_other now ip ip' rl2 Hne) as Hl2.
      rewrite H1 in Hl1. rewrite H2 in Hl2. cbn in Hl1, Hl2.
      split; [congruence|done]. }
  destruct Hnext as [Hl Ho].
  destruct (decide (ip' = ip)) as [Hip|Hne].
  - rewrite (Ho Hip). f_equal. now apply IH.
  - now apply IH.
Qed.


End LimiterMore.

(** X18. In every table the server can reach -- from the empty one, by
    attempts passing the middleware and by runs of [cleanRateLimiters] --
    each entry counts at least 1 and at most [maxRequests] = 5 requests. *)
Theorem limiter_counts_bounded (rl : gmap string Limiter.rateLimiter) :
  reachable rl -> countsBounded rl.
Proof.
  intros Hreach. induction Hreach as [|now ip rl _ IH|now rl _ IH].
  - intros ip limiter Hfound. by rewrite lookup_empty in Hfound.
  - now apply countsBounded_middleware.
  - now apply countsBounded_clean.
Qed.

(** Seven attempts of one client in a row, then a clean-up. *)
Lemma limiter_counts_bounded_witness :
  let ip := "10.0.0.1"%string in
  let s := Limiter.Second in
  countsBounded
    (Limiter.cleanRateLimiters (100 * s)
       (Limiter.serve [(0, ip); (1 * s, ip); (2 * s, ip); (3 * s, ip);
                       (4 * s, ip); (5 * s, ip); (6 * s, ip)] ∅)).
Proof.
  intros ip s. apply limiter_counts_bounded.
  apply reach_clean. cbn [Limiter.serve].
  do 7 apply reach_attempt. apply reach_start.
Defined.

(** X19. Clients do not interfere: the outcomes of a client's attempts in
    any sequence of attempts are those of the same attempts with every other
    client's attempts left out. *)
Theorem limiter_clients_independent
  (ip : string) (attempts : list (Z * string)) (rl : gmap string Limiter.rateLimiter) :
  Limiter.outcomesOf ip attempts rl =
  Limiter.outcomesOf ip (filter (fun a => snd a = ip) attempts) rl.
Proof.
  revert rl. induction attempts as [|[now ip'] rest IH]; intros rl; [reflexivity|].
  rewrite filter_cons. cbn [snd].
  destruct (decide (ip' = ip)) as [->|Hne].
  - cbn [Limiter.outcomesOf].
    destruct (Limiter.rateLimitMiddleware now ip rl) as [rl' o].
    destruct (decide (ip = ip)) as [_|Hne]; [|done]. f_equal. apply IH.
  - cbn [Limiter.outcomesOf].
    destruct (Limiter.rateLimitMiddleware now ip' rl) as [rl' o] eqn:Hstep.
    destruct (decide (ip' = ip)) as [Heq|_]; [done|].
    rewrite IH. apply outcomesOf_local.
    pose proof (middleware_other now ip ip' rl Hne) as Hl.
    rewrite Hstep in Hl. exact Hl.
Qed.



(** *** The Redis-backed handlers *)

(** X21. What [SaveURL] writes, [GetURL] reads: for a record the JSON codec
    reads back, saving it under a code and getting that code returns the
    record, and getting any other code returns what it returned before. *)
Theorem redis_save_then_get {codec : Redis.DataCodec}
  (db : gmap string string) (code : string) (data : Json.URLData) :
  Redis.unmarshalData (Redis.marshal data) = Some data ->
  exists db',
    Redis.SaveURL code data db = Some db' /\
    Redis.GetURL code db' = Some data /\
    (forall other, other <> code -> Redis.GetURL other db' = Redis.GetURL other db).
Proof.
  intros Hcodec. eexists. split; [reflexivity|]. unfold Redis.GetURL. split.
  - now rewrite lookup_insert_eq.
  - intros other Hne. now rewrite lookup_insert_ne.
Qed.

Lemma redis_save_then_get_witness :
  exists db',
    Redis.SaveURL (codec := Redis.jsonData) "abc" Scenario.liveRecord ∅ = Some db' /\
    Redis.GetURL (codec := Redis.jsonData) "abc" db' = Some Scenario.liveRecord /\
    (forall other, other <> "abc"%string ->
       Redis.GetURL (codec := Redis.jsonData) other db' =
       Redis.GetURL (codec := Redis.jsonData) other ∅).
Proof.
  apply (redis_save_then_get (codec := Redis.jsonData) ∅ "abc" Scenario.liveRecord).
  reflexivity.
Defined.

(** X22. The counter is a key like any other: [DELETE /delete/url_id_counter]
    is answered 204 and removes it, and the next shorten request without
    custom code is given the identifier 1 again -- it returns the code [1]
    and writes its record over whatever that key held. *)
Theorem redis_delete_counter_reissues_code {codec : Redis.DataCodec}
  (db : gmap string string) (now : Z) (body : Json.ShortenBody) :
  Json.isValidURL (Json.URL body) = true ->
  Json.CustomCode body = EmptyString ->
  let deleted := Redis.deleteHandle Redis.counterKey db in
  fst deleted = Redis.Status Json.StatusNoContent /\
  Redis.shortenHandler now (Some body) (snd deleted) =
    (Redis.ShortenedJSON 200 "http://localhost:8080/1",
     <["1"%string := Redis.marshal
         (Json.mkURLData (Json.URL body) 0 now (Json.storedExpiry body))]>
       (<[Redis.counterKey := "1"%string]> (delete Redis.counterKey db))).
Proof.
  intros Hurl Hnone deleted. split; [reflexivity|].
  subst deleted. unfold Redis.deleteHandle, Redis.DeleteURL. cbn [snd].
  unfold Redis.shortenHandler.
  rewrite (isValidURL_nonempty _ Hurl), Hurl, Hnone. cbn [negb String.eqb].
  unfold Redis.GetNextID, Redis.Incr. rewrite lookup_delete_eq. reflexivity.
Qed.

(** A database whose counter stands at 7 and whose key [1] holds a record. *)
Lemma redis_delete_counter_reissues_code_witness :
  let db : gmap string string :=
    <["1"%string := Redis.marshal (DataCodec := Redis.jsonData) Scenario.liveRecord]>
      (<[Redis.counterKey := "7"%string]> ∅) in
  let deleted := Redis.deleteHandle Redis.counterKey db in
  fst deleted = Redis.Status Json.StatusNoContent /\
  Redis.shortenHandler (codec := Redis.jsonData) 1700000500
    (Some (Json.mkShortenBody "https://other.example" "" 0)) (snd deleted) =
    (Redis.ShortenedJSON 200 "http://localhost:8080/1",
     <["1"%string := Redis.marshal (DataCodec := Redis.jsonData)
         (Json.mkURLData "https://other.example" 0 1700000500 604800)]>
       (<[Redis.counterKey := "1"%string]> (delete Redis.counterKey db))).
Proof.
  intros db.
  apply (redis_delete_counter_reissues_code (codec := Redis.jsonData) db 1700000500
           (Json.mkShortenBody "https://other.example" "" 0)); reflexivity.
Defined.

(** X23. A redirect on a stored record that is not refused as expired
    answers 302 with its URL and saves the record with one more click, so
    that the next [GetURL] of the code returns it; no other key changes. *)
Theorem redis_redirect_counts_click {codec : Redis.DataCodec}
  (db : gmap string string) (now : Z) (code : string) (data : Json.URLData) :
  Redis.GetURL code db = Some data ->
  (Json.Expiry data = 0 \/ Json.IsExpired data now = false) ->
  inInt64 (Json.Clicks data + 1) ->
  let clicked := Json.mkURLData (Json.LongURL data) (Json.Clicks data + 1)
                   (Json.CreatedAt data) (Json.Expiry data) in
  Redis.unmarshalData (Redis.marshal clicked) = Some clicked ->
  exists db',
    Redis.handleRedirects now code db =
      (Redis.Redirect Json.StatusFound (Json.LongURL data), db') /\
    Redis.GetURL code db' = Some clicked /\
    (forall other, other <> code -> db' !! other = db !! other).
Proof.
  intros Hfound Hlive Hclicks clicked Hcodec. unfold Redis.handleRedirects.
  rewrite Hfound.
  assert (Hguard : negb (Json.Expiry data =? 0) && Json.IsExpired data now = false).
  { destruct Hlive as [Hz|Hz]; rewrite Hz; [reflexivity|apply andb_false_r]. }
  rewrite Hguard. cbn [Redis.SaveURL]. rewrite (wrap64_id _ Hclicks).
  eexists. split; [reflexivity|]. split.
  - unfold Redis.GetURL. rewrite lookup_insert_eq. exact Hcodec.
  - intros other Hne. now rewrite lookup_insert_ne.
Qed.

Lemma redis_redirect_counts_click_witness :
  let db : gmap string string :=
    {[ "abc"%string := Redis.marshal (DataCodec := Redis.jsonData) Scenario.liveRecord ]} in
  exists db',
    Redis.handleRedirects (codec := Redis.jsonData) Scenario.liveNow "abc" db =
      (Redis.Redirect Json.StatusFound Scenario.exampleURL, db') /\
    Redis.GetURL (codec := Redis.jsonData) "abc" db' = Some Scenario.clickedRecord /\
    (forall other, other <> "abc"%string -> db' !! other = db !! other).
Proof.
  intros db.
  apply (redis_redirect_counts_click (codec := Redis.jsonData) db Scenario.liveNow
           "abc" Scenario.liveRecord);
    [reflexivity | right; reflexivity | unfold inInt64, minInt64, maxInt64; cbn; lia
    | reflexivity].
Defined.

Section RedisIdentifiers.
Import Json Redis.

Lemma GetNextID_absent db :
  db !! counterKey = None ->
  GetNextID db = Some (1, <[counterKey := JSONCodec.putInt 1 EmptyString]> db).
Proof. intros Hnone. unfold GetNextID, Incr. now rewrite Hnone. Qed.

Lemma nextIDs_from_counter k : forall db n,
  db !! counterKey = Some (JSONCodec.putInt n EmptyString) ->
  inInt64 n ->
  n + Z.of_nat k <= maxInt64 ->
  exists db',
    nextIDs k db = Some (seqZ (n + 1) (Z.of_nat k), db') /\
    db' !! counterKey = Some (JSONCodec.putInt (n + Z.of_nat k) EmptyString) /\
    (forall key, key <> counterKey -> db' !! key = db !! key).
Proof.
  induction k as [|k IH]; intros db n Hkey Hn Hmax.
  - exists db. cbn [nextIDs]. rewrite Z.add_0_r. repeat split. exact Hkey.
  - cbn [nextIDs]. rewrite (GetNextID_next db n Hkey Hn) by lia.
    destruct (IH (<[counterKey := JSONCodec.putInt (n + 1) EmptyString]> db) (n + 1))
      as (db' & Hrun & Hkey' & Hothers).
    + apply lookup_insert_eq.
    + unfold inInt64, minInt64, maxInt64 in *. lia.
    + lia.
    + exists db'. rewrite Hrun. rewrite (seqZ_cons (n + 1)) by lia.
      replace (Z.succ (n + 1)) with (n + 1 + 1) by lia.
      replace (Z.pred (Z.of_nat (S k))) with (Z.of_nat k) by lia.
      split; [reflexivity|]. split.
      * rewrite Hkey'. do 2 f_equal. lia.
      * intros key Hne. rewrite Hothers by assumption. now rewrite lookup_insert_ne.
Qed.

End RedisIdentifiers.

(** X24. [GetNextID] counts: on a database whose counter key is absent or
    holds the decimal text of [n], [k] calls (at least one) return [n + 1],
    ..., [n + k] -- 1, ..., [k] from an absent key -- as long as [n + k] is
    an [int64]; afterwards the key holds the text of [n + k] and no other key
    has changed. *)
Theorem redis_next_ids_consecutive
  (db : gmap string string) (n : Z) (k : nat) :
  (db !! Redis.counterKey = None /\ n = 0 \/
   db !! Redis.counterKey = Some (JSONCodec.putInt n EmptyString)) ->
  inInt64 n ->
  n + Z.of_nat (S k) <= maxInt64 ->
  exists db',
    nextIDs (S k) db = Some (seqZ (n + 1) (Z.of_nat (S k)), db') /\
    db' !! Redis.counterKey = Some (JSONCodec.putInt (n + Z.of_nat (S k)) EmptyString) /\
    (forall key, key <> Redis.counterKey -> db' !! key = db !! key).
Proof.
  intros Hcounter Hn Hmax.
  destruct Hcounter as [[Hnone ->]|Hkey].
  - cbn [nextIDs]. rewrite (GetNextID_absent db Hnone).
    destruct (nextIDs_from_counter k
                (<[Redis.counterKey := JSONCodec.putInt 1 EmptyString]> db) 1)
      as (db' & Hrun & Hkey' & Hothers).
    + apply lookup_insert_eq.
    + unfold inInt64, minInt64, maxInt64. lia.
    + lia.
    + exists db'. rewrite Hrun. rewrite (seqZ_cons (0 + 1)) by lia.
      replace (Z.succ (0 + 1)) with (1 + 1) by lia.
      replace (Z.pred (Z.of_nat (S k))) with (Z.of_nat k) by lia.
      split; [reflexivity|]. split.
      * rewrite Hkey'. do 2 f_equal. lia.
      * intros key Hne. rewrite Hothers by assumption. now rewrite lookup_insert_ne.
  - now apply nextIDs_from_counter.
Qed.

(** Three identifiers on an empty database. *)
Lemma redis_next_ids_consecutive_witness :
  exists db',
    nextIDs 3 ∅ = Some ([1; 2; 3], db') /\
    db' !! Redis.counterKey = Some "3"%string /\
    (forall key, key <> Redis.counterKey -> db' !! key = (∅ : gmap string string) !! key).
Proof.
  apply (redis_next_ids_consecutive ∅ 0 2);
    [left; split; reflexivity | unfold inInt64, minInt64, maxInt64; lia
    | unfold maxInt64; lia].
Defined.

Section RedisSweepOnlyDeletes.
Import Json Redis.
Context {codec : DataCodec} {layout : TimeLayout}.

Lemma sweepListed_only_deletes now urls : forall db key,
  sweepListed now urls db !! key = db !! key \/
  (sweepListed now urls db !! key = None /\
   exists urlData, urlData ∈ urls /\ listed_code urlData = key).
Proof.
  induction urls as [|urlData rest IH]; intros db key; [now left|].
  assert (Hstep : sweepListed now (urlData :: rest) db =
            sweepListed now rest (if sweeps now urlData
                                  then delete (listed_code urlData) db else db)).
  { cbn [sweepListed]. unfold sweeps, DeleteURL.
    destruct (parseRFC3339 _) as [expiresAt|]; [|reflexivity].
    now destruct (expiresAt <? now). }
  rewrite Hstep. clear Hstep.
  set (db1 := if sweeps now urlData then delete (listed_code urlData) db else db).
  destruct (IH db1 key) as [Hsame|[Hnone (u & Hin & Hcode)]].
  - rewrite Hsame. subst db1. destruct (sweeps now urlData); [|now left].
    destruct (decide (listed_code urlData = key)) as [Hcode|Hne].
    + right. rewrite <- Hcode, lookup_delete_eq. split; [reflexivity|].
      exists urlData. split; [apply elem_of_cons; now left|reflexivity].
    + left. now rewrite lookup_delete_ne.
  - right. split; [exact Hnone|]. exists u. split; [apply elem_of_cons; now right|exact Hcode].
Qed.

End RedisSweepOnlyDeletes.

(** X25. The sweep only deletes, and only records: every key of the
    database either keeps its value through [cleanUpExpiredLinks] or is
    removed, and a key is removed only if its value decodes as a record --
    the counter key and any other value that is no record stay. *)
Theorem redis_sweep_only_deletes_records
  {codec : Redis.DataCodec} {layout : Redis.TimeLayout}
  (db : gmap string string) (now : Z) (key : string) :
  Redis.cleanUpExpiredLinks now db !! key = db !! key \/
  (Redis.cleanUpExpiredLinks now db !! key = None /\
   exists data, Redis.GetURL key db = Some data).
Proof.
  unfold Redis.cleanUpExpiredLinks.
  destruct (sweepListed_only_deletes now (Redis.ListURLs now db) db key)
    as [Hsame|[Hnone (u & Hin & Hcode)]]; [now left|].
  right. split; [exact Hnone|].
  apply elem_of_ListURLs in Hin as (data & Hget & _).
  rewrite Hcode in Hget. eauto.
Qed.

(** X27. The sweep of this variant goes by the text: for every record whose
    [expires_at] text [time.Parse] reads back as its expiry instant, the key
    is deleted if the record is expired at the sweep instant and keeps its
    value if it is not; a record whose text [time.Parse] refuses keeps its
    key and value, expired or not; so does every key that holds no
    record. *)
Theorem redis_sweep_follows_expiry_text
  {codec : Redis.DataCodec} {layout : Redis.TimeLayout}
  (db : gmap string string) (now : Z) :
  let swept := Redis.cleanUpExpiredLinks now db in
  (forall code data, Redis.GetURL code db = Some data ->
     Redis.parseRFC3339 (Redis.formatRFC3339 (expiresAt data)) = Some (expiresAt data) ->
     (Json.IsExpired data now = true -> swept !! code = None) /\
     (Json.IsExpired data now = false -> swept !! code = db !! code)) /\
  (forall code data, Redis.GetURL code db = Some data ->
     Redis.parseRFC3339 (Redis.formatRFC3339 (expiresAt data)) = None ->
     swept !! code = db !! code) /\
  (forall code, Redis.GetURL code db = None -> swept !! code = db !! code).
Proof.
  intros swept. subst swept. unfold Redis.cleanUpExpiredLinks, expiresAt.
  assert (Hkeep : forall code data, Redis.GetURL code db = Some data ->
            match Redis.parseRFC3339
                    (Redis.formatRFC3339 (wrap64 (Json.CreatedAt data + Json.Expiry data))) with
            | Some t => t <? now
            | None => false
            end = false ->
            Redis.sweepListed now (Redis.ListURLs now db) db !! code = db !! code).
  { intros code data Hget Hno.
    apply sweepListed_lookup. intros u Hin Hcode.
    apply elem_of_ListURLs in Hin as (data' & Hget' & ->). cbn [Redis.listed_code] in *.
    subst code. rewrite Hget in Hget'. injection Hget' as <-.
    unfold Redis.sweeps. cbn [Redis.listed_expires_at]. exact Hno. }
  split; [|split].
  - intros code data Hget Hback. split.
    + intros Hexp. apply sweepListed_lookup.
      exists (Redis.mkListed code (Json.LongURL data) (Json.Clicks data)
                (Redis.formatRFC3339 (Json.CreatedAt data))
                (Redis.formatRFC3339 (wrap64 (Json.CreatedAt data + Json.Expiry data)))
                (wrap64 (Json.CreatedAt data + Json.Expiry data) <? now)).
      split; [|split; [reflexivity|]].
      * apply elem_of_ListURLs. cbn [Redis.listed_code]. eauto.
      * unfold Redis.sweeps. cbn [Redis.listed_expires_at]. now rewrite Hback.
    + intros Hfresh. apply (Hkeep code data Hget). now rewrite Hback.
  - intros code data Hget Hrefused. apply (Hkeep code data Hget). now rewrite Hrefused.
  - intros code Hget.
    apply sweepListed_lookup. intros u Hin Hcode.
    apply elem_of_ListURLs in Hin as (data' & Hget' & _).
    subst code. congruence.
Qed.
